(** * A tick-driven timer scheduler: [Timer] and [TimerManager] of timer.js

    Shallow embedding of the two classes and of the process-wide state they
    reach into ([player.timerManager], [player.inactivityLastClearDate],
    the notification service, the console).

    Conventions of the embedding.
    - A [Date] is its millisecond value (what [date - date] subtracts).
      [new Date()] reads the field [now] of the world; synchronous code runs
      to completion within one clock reading, and time advances between
      operations.
    - Counters and second counts are integers ([Z]); the two quotients by
      1000 are rationals ([Q]).  On millisecond dates the exact values of
      the two sides of each comparison are equal or at least a thousandth
      apart, far above the rounding of the doubles, so that only a tie can
      be decided by rounding.  The catch-up test of [executeAction] has no
      sum and decides a tie as the exact values do; the drift guard of
      [checkTimers] adds 0.4, and its ties are computed in doubles.
    - [Timer] objects live in a store and the manager's array holds their
      addresses, so that an object dropped from the array can still be
      reached by the continuation of its own [executeAction].
    - The host callables ([action], [tickAction]), [console.warn] and
      [clearAlerts] are external collaborators: a call to one of them is
      recorded in the world's [trace] and has no effect on the timers. *)

From Stdlib Require Import ZArith QArith Bool List Lia.
From Stdlib Require SpecFloat.
From stdpp Require Import base option list strings.
Import ListNotations.

Local Open Scope Z_scope.

(** ** Dates, callables, addresses *)

(** A date is its millisecond value, a host callable is named by a number,
    and so is the address of an object. *)
Abbreviation Date := Z (only parsing).
Abbreviation Callback := nat (only parsing).
Abbreviation addr := nat (only parsing).

(** [Math.abs(a - b) / 1000] on two dates. *)
Definition timeDiffSec (a b : Date) : Q := inject_Z (Z.abs (a - b)) / inject_Z 1000.

Definition Qltb (x y : Q) : bool :=
  match Qcompare x y with Lt => true | _ => false end.

(** Doubles (IEEE 754 binary64), with rounding to nearest, ties to even. *)
Definition double : Type := SpecFloat.spec_float.

Definition doubleOfZ (z : Z) : double := SpecFloat.binary_normalize 53 1024 z 0 false.
Definition doubleAdd (x y : double) : double := SpecFloat.SFadd 53 1024 x y.
Definition doubleDiv (x y : double) : double := SpecFloat.SFdiv 53 1024 x y.
Definition doubleLtb (x y : double) : bool := SpecFloat.SFltb x y.

(** [a % b] on integral numbers: the sign of the dividend, and NaN ([None])
    for a zero divisor. *)
Definition jsRem (a b : Z) : option Z :=
  if b =? 0 then None else Some (Z.rem a b).

(** [(a % b) === 0] *)
Definition remIsZero (a b : Z) : bool :=
  match jsRem a b with
  | Some r => r =? 0
  | None => false
  end.

(** ** class Timer *)

Module Timer.

Record Timer : Type := mkTimer {
  id : string;
  action : Callback;
  isBlockTimer : bool;
  intervalSeconds : Z;
  maxSeconds : option Z;
  isInactivityTimer : bool;
  isActionRunning : bool;
  isActive : bool;
  lastExecutionDate : Date;
  elapsedSeconds : Z;
  tickAction : option Callback;
  createdDate : Date
}.

(** Field assignments [this.f = v]. *)
Definition set_maxSeconds (v : option Z) (t : Timer) : Timer :=
  mkTimer (id t) (action t) (isBlockTimer t) (intervalSeconds t) v
          (isInactivityTimer t) (isActionRunning t) (isActive t)
          (lastExecutionDate t) (elapsedSeconds t) (tickAction t) (createdDate t).

Definition set_isActionRunning (v : bool) (t : Timer) : Timer :=
  mkTimer (id t) (action t) (isBlockTimer t) (intervalSeconds t) (maxSeconds t)
          (isInactivityTimer t) v (isActive t)
          (lastExecutionDate t) (elapsedSeconds t) (tickAction t) (createdDate t).

Definition set_isActive (v : bool) (t : Timer) : Timer :=
  mkTimer (id t) (action t) (isBlockTimer t) (intervalSeconds t) (maxSeconds t)
          (isInactivityTimer t) (isActionRunning t) v
          (lastExecutionDate t) (elapsedSeconds t) (tickAction t) (createdDate t).

Definition set_lastExecutionDate (v : Date) (t : Timer) : Timer :=
  mkTimer (id t) (action t) (isBlockTimer t) (intervalSeconds t) (maxSeconds t)
          (isInactivityTimer t) (isActionRunning t) (isActive t)
          v (elapsedSeconds t) (tickAction t) (createdDate t).

Definition set_elapsedSeconds (v : Z) (t : Timer) : Timer :=
  mkTimer (id t) (action t) (isBlockTimer t) (intervalSeconds t) (maxSeconds t)
          (isInactivityTimer t) (isActionRunning t) (isActive t)
          (lastExecutionDate t) v (tickAction t) (createdDate t).

(** [new Timer(id, action, isBlockTimer, intervalSeconds, maxSeconds,
    isInactivityTimer, tickAction)], evaluated at clock reading [today]. *)
Definition constructor (id : string) (action : Callback) (isBlockTimer : bool)
    (intervalSeconds : Z) (maxSeconds : option Z) (isInactivityTimer : bool)
    (tickAction : option Callback) (today : Date) : Timer :=
  {| id := id;
     action := action;
     isBlockTimer := isBlockTimer;
     intervalSeconds := intervalSeconds;
     maxSeconds := maxSeconds;
     isInactivityTimer := isInactivityTimer;
     isActionRunning := false;
     isActive := false;
     lastExecutionDate := today;
     elapsedSeconds := 4800;
     tickAction := tickAction;
     createdDate := today |}.

(** [get remainingSeconds()] *)
Definition remainingSeconds (t : Timer) : option Z :=
  match maxSeconds t with
  | None => None
  | Some m => Some (Z.max 0 (m - elapsedSeconds t))
  end.

Definition rangeStart : Z := 0.
Definition rangeEnd : Z := 4800.

(** [get isComplete()].  A [null] operand of [>=] and [<=] counts as 0. *)
Definition isComplete (t : Timer) : bool :=
  match maxSeconds t with
  | None => false
  | Some _ =>
      match remainingSeconds t with
      | Some r => (rangeStart <=? r) && (r <=? rangeEnd)
      | None => true
      end
  end.

(** [cancel()] *)
Definition cancel (t : Timer) : Timer :=
  set_maxSeconds (Some (elapsedSeconds t)) (set_isActive false t).

(** [resetElapsedSeconds()] *)
Definition resetElapsedSeconds (t : Timer) : Timer :=
  set_elapsedSeconds 0 t.

(** [resetLastExecutionDate()] at clock reading [today]. *)
Definition resetLastExecutionDate (today : Date) (t : Timer) : Timer :=
  set_lastExecutionDate today t.

(** The test that guards the call of [action] in [executeAction]. *)
Definition fires (currentDate : Date) (t : Timer) : bool :=
  isActive t && negb (isActionRunning t) &&
  (remIsZero (elapsedSeconds t) (intervalSeconds t)
   || Qle_bool (inject_Z (intervalSeconds t + 1))
               (timeDiffSec currentDate (lastExecutionDate t))).

(** What [executeAction] runs once the awaited [action] has settled. *)
Definition afterAction (t : Timer) : Timer :=
  let t1 := set_isActionRunning false t in
  if isComplete t1 then set_isActive false t1 else t1.

End Timer.

(** ** class TimerManager *)

Module TimerManager.

Record TimerManager : Type := mkTimerManager {
  timers : list addr;
  lastExecutionDate : Date;
  checkTimerInterval : Z
}.

(** [static timerTolerance = 0.4] *)
Definition timerTolerance : Q := 4 # 10.

(** The double that the literal [0.4] denotes. *)
Definition timerToleranceDouble : double := doubleDiv (doubleOfZ 4) (doubleOfZ 10).

(** [new TimerManager()] at clock reading [today]. *)
Definition constructor (today : Date) : TimerManager :=
  {| timers := []; lastExecutionDate := today; checkTimerInterval := 1000 |}.

End TimerManager.

(** ** The world the methods run in *)

Inductive Warning : Type :=
| InvalidTimer (timerId : string) (intervalSeconds : Z) (maxSeconds : option Z)
| DuplicateTimer (timerId : string).

Inductive Event : Type :=
| ConsoleWarn (msg : Warning)
| TickActionCall (f : Callback) (timer : addr)
| ActionCall (f : Callback) (timer : addr)
| ClearAlerts (names : list string).

Record World : Type := mkWorld {
  heap : list Timer.Timer;              (* the Timer objects, by address *)
  timerManager : TimerManager.TimerManager;   (* player.timerManager *)
  inactivityLastClearDate : Date;       (* player.inactivityLastClearDate *)
  rxdLibraryIsAvailable : bool;         (* result of rxdLibraryIsAvailable() *)
  now : Date;                           (* what new Date() reads *)
  awaiting : list addr;                 (* executeAction calls suspended at await *)
  trace : list Event                    (* calls made to the collaborators *)
}.

Definition set_heap (h : list Timer.Timer) (w : World) : World :=
  mkWorld h (timerManager w) (inactivityLastClearDate w) (rxdLibraryIsAvailable w)
          (now w) (awaiting w) (trace w).

Definition set_timerManager (m : TimerManager.TimerManager) (w : World) : World :=
  mkWorld (heap w) m (inactivityLastClearDate w) (rxdLibraryIsAvailable w)
          (now w) (awaiting w) (trace w).

Definition set_inactivityLastClearDate (d : Date) (w : World) : World :=
  mkWorld (heap w) (timerManager w) d (rxdLibraryIsAvailable w)
          (now w) (awaiting w) (trace w).

Definition set_now (d : Date) (w : World) : World :=
  mkWorld (heap w) (timerManager w) (inactivityLastClearDate w) (rxdLibraryIsAvailable w)
          d (awaiting w) (trace w).

Definition set_awaiting (l : list addr) (w : World) : World :=
  mkWorld (heap w) (timerManager w) (inactivityLastClearDate w) (rxdLibraryIsAvailable w)
          (now w) l (trace w).

Definition emit (e : Event) (w : World) : World :=
  mkWorld (heap w) (timerManager w) (inactivityLastClearDate w) (rxdLibraryIsAvailable w)
          (now w) (awaiting w) (trace w ++ [e]).

(** Run a [Timer] method on the object at address [a]. *)
Definition update (a : addr) (f : Timer.Timer -> Timer.Timer) (w : World) : World :=
  set_heap (alter f a (heap w)) w.

(** Evaluate a predicate [x => ...] of [filter]/[some] on the object at [a]. *)
Definition holds (p : Timer.Timer -> bool) (h : list Timer.Timer) (a : addr) : bool :=
  match h !! a with
  | Some t => p t
  | None => false
  end.

(** [arr.filter(p).forEach(x => x.m())] for a method [m] that only writes [x]. *)
Definition forEach (f : Timer.Timer -> Timer.Timer) (l : list addr) (w : World) : World :=
  fold_left (fun w a => update a f w) l w.

(** *** Timer.executeAction *)

(** [executeAction(currentDate)] on the object at [self], up to the [await]. *)
Definition executeAction (self : addr) (currentDate : Date) (w : World) : World :=
  match heap w !! self with
  | None => w
  | Some t =>
      if negb (Timer.isActive t) then w
      else
        let t1 := Timer.set_elapsedSeconds (Timer.elapsedSeconds t + 1) t in
        let w1 := update self (fun _ => t1) w in
        let w2 := match Timer.tickAction t1 with
                  | Some f => emit (TickActionCall f self) w1
                  | None => w1
                  end in
        if Timer.fires currentDate t1 then
          let w3 := update self (fun t => Timer.set_lastExecutionDate (now w2)
                                            (Timer.set_isActionRunning true t)) w2 in
          set_awaiting (awaiting w3 ++ [self]) (emit (ActionCall (Timer.action t1) self) w3)
        else w2
  end.

(** The rest of [executeAction], run when the awaited promise is fulfilled. *)
Definition executeAction_resume (self : addr) (w : World) : World :=
  update self Timer.afterAction w.

(** [arr.map(x => x.executeAction(currentDate))]: the calls run one after
    the other, each up to its [await]. *)
Definition executeAll (currentDate : Date) (l : list addr) (w : World) : World :=
  fold_left (fun w x => executeAction x currentDate w) l w.

(** *** TimerManager methods, on [player.timerManager] *)

(** [(timeDiffSec + TimerManager.timerTolerance) < (timerManager.checkTimerInterval / 1000)]
    as the doubles compute it. *)
Definition skipsPassDouble (w : World) : bool :=
  let currentDate := now w in
  let timeDiffSec :=
    doubleDiv (doubleOfZ (Z.abs (currentDate
                                 - TimerManager.lastExecutionDate (timerManager w))))
              (doubleOfZ 1000) in
  doubleLtb (doubleAdd timeDiffSec TimerManager.timerToleranceDouble)
            (doubleDiv (doubleOfZ (TimerManager.checkTimerInterval (timerManager w)))
                       (doubleOfZ 1000)).

(** The drift guard of [checkTimers].  When the exact values of the two
    sides differ, the comparison is that of the exact values; when they are
    equal, rounding decides, and the doubles are computed. *)
Definition skipsPass (w : World) : bool :=
  let currentDate := now w in
  let timeDiffSec := timeDiffSec currentDate (TimerManager.lastExecutionDate (timerManager w)) in
  let period :=
    (inject_Z (TimerManager.checkTimerInterval (timerManager w)) / inject_Z 1000)%Q in
  Qltb (timeDiffSec + TimerManager.timerTolerance) period
  || (Qeq_bool (timeDiffSec + TimerManager.timerTolerance) period && skipsPassDouble w).

(** [static checkTimers(timerManager)] *)
Definition checkTimers (w : World) : World :=
  let currentDate := now w in
  if skipsPass w then w
  else
    let m := timerManager w in
    let kept := List.filter
                  (holds (fun x => Timer.isActive x || Timer.isInactivityTimer x) (heap w))
                  (TimerManager.timers m) in
    let w1 := set_timerManager
                (TimerManager.mkTimerManager kept currentDate
                   (TimerManager.checkTimerInterval m)) w in
    executeAll currentDate (List.filter (holds Timer.isActive (heap w1)) kept) w1.

(** The guard of [addTimer] against adding the same timer twice:
    [this.timers.filter(t => t.id === timerId && t.isActive === true).length === 0] *)
Definition noActiveTimer (timerId : string) (w : World) : bool :=
  Nat.eqb (length (List.filter
             (holds (fun t => String.eqb (Timer.id t) timerId
                              && Bool.eqb (Timer.isActive t) true) (heap w))
             (TimerManager.timers (timerManager w)))) 0.

(** [addTimer(timerId, timerAction, isBlockTimer, intervalSeconds, maxSeconds,
    isInactivityTimer, tickAction)] *)
Definition addTimer (timerId : string) (timerAction : Callback) (isBlockTimer : bool)
    (intervalSeconds : Z) (maxSeconds : option Z) (isInactivityTimer : bool)
    (tickAction : option Callback) (w : World) : World :=
  if (intervalSeconds <=? 0)
     || match maxSeconds with Some m => m <=? 0 | None => false end
  then emit (ConsoleWarn (InvalidTimer timerId intervalSeconds maxSeconds)) w
  else
    let m := timerManager w in
    if noActiveTimer timerId w
    then
      let fresh := length (heap w) in
      let t := Timer.constructor timerId timerAction isBlockTimer intervalSeconds
                 maxSeconds isInactivityTimer tickAction (now w) in
      set_timerManager
        (TimerManager.mkTimerManager (TimerManager.timers m ++ [fresh])
           (TimerManager.lastExecutionDate m) (TimerManager.checkTimerInterval m))
        (set_heap (heap w ++ [t]) w)
    else emit (ConsoleWarn (DuplicateTimer timerId)) w.

(** [cancelBlockTimers()] *)
Definition cancelBlockTimers (w : World) : World :=
  forEach Timer.cancel
    (List.filter (holds Timer.isBlockTimer (heap w)) (TimerManager.timers (timerManager w))) w.

(** [getTimer(timerId)] *)
Definition getTimer (timerId : string) (w : World) : option addr :=
  let filtered := List.filter (holds (fun x => String.eqb (Timer.id x) timerId) (heap w))
                    (TimerManager.timers (timerManager w)) in
  if Nat.ltb 0 (length filtered) then filtered !! 0%nat else None.

(** [hasTimer(timerId)] *)
Definition hasTimer (timerId : string) (w : World) : bool :=
  match getTimer timerId w with Some _ => true | None => false end.

(** [cancelTimer(timerId)] *)
Definition cancelTimer (timerId : string) (w : World) : World :=
  forEach Timer.cancel
    (List.filter (holds (fun x => String.eqb (Timer.id x) timerId) (heap w))
       (TimerManager.timers (timerManager w))) w.

(** [cancelTimers(timerIds)] *)
Definition cancelTimers (timerIds : list string) (w : World) : World :=
  forEach Timer.cancel
    (List.filter (holds (fun x => existsb (String.eqb (Timer.id x)) timerIds) (heap w))
       (TimerManager.timers (timerManager w))) w.

(** [hasInactivityTimers()] *)
Definition hasInactivityTimers (w : World) : bool :=
  existsb (holds Timer.isInactivityTimer (heap w)) (TimerManager.timers (timerManager w)).

(** The body of the [forEach] that ends [resetInactivityTimers]. *)
Definition reactivate (today : Date) (t : Timer.Timer) : Timer.Timer :=
  Timer.set_isActive true (Timer.resetLastExecutionDate today (Timer.resetElapsedSeconds t)).

Definition warningAlertName (w : World) : string :=
  if rxdLibraryIsAvailable w then "RxdUserInactivityWarning" else "UserInactivityWarning".

(** [resetInactivityTimers()].  The method calls itself on
    [player.timerManager] right after it has recorded the clear date;
    [depth] bounds the nesting of these calls, [None] is an exhausted bound. *)
Fixpoint resetInactivityTimers (depth : nat) (w : World) : option World :=
  match depth with
  | O => None
  | S depth' =>
      let currentDate := now w in
      if Z.abs (currentDate - inactivityLastClearDate w) <? 10000 then Some w
      else
        let w1 := set_inactivityLastClearDate currentDate w in
        match resetInactivityTimers depth' w1 with
        | None => None
        | Some w2 =>
            let w3 := emit (ClearAlerts [warningAlertName w2]) w2 in
            Some (forEach (reactivate (now w3))
                    (List.filter (holds Timer.isInactivityTimer (heap w3))
                       (TimerManager.timers (timerManager w3))) w3)
        end
  end.

(** ** Runs of the system *)

(** What can happen to a world: a call of a public method, the clock moving,
    or the promise of a suspended [executeAction] being settled. *)
Inductive Op : Type :=
| AddTimer (timerId : string) (timerAction : Callback) (isBlockTimer : bool)
    (intervalSeconds : Z) (maxSeconds : option Z) (isInactivityTimer : bool)
    (tickAction : option Callback)
| NewTimer (id : string) (action : Callback) (isBlockTimer : bool)
    (intervalSeconds : Z) (maxSeconds : option Z) (isInactivityTimer : bool)
    (tickAction : option Callback)
| CheckTimers
| ExecuteAction (self : addr) (currentDate : Date)
| Cancel (self : addr)
| ResetElapsedSeconds (self : addr)
| ResetLastExecutionDate (self : addr)
| CancelTimer (timerId : string)
| CancelTimers (timerIds : list string)
| CancelBlockTimers
| ResetInactivityTimers
| SetTimers (value : list addr)
| ActionFulfilled (self : addr)
| ActionRejected (self : addr)
| ClockReads (today : Date).

Fixpoint removeFirst (a : addr) (l : list addr) : list addr :=
  match l with
  | [] => []
  | x :: l' => if Nat.eqb x a then l' else x :: removeFirst a l'
  end.

(** Two nested calls are all [resetInactivityTimers] ever makes
    (see [resetInactivityTimers_depth] below). *)
Definition resetDepth : nat := 2.

(** One operation; [None] when it cannot happen in [w] (no call is suspended
    on [self]). *)
Definition step (o : Op) (w : World) : option World :=
  match o with
  | AddTimer i f b n m ia ta => Some (addTimer i f b n m ia ta w)
  | NewTimer i f b n m ia ta =>
      Some (set_heap (heap w ++ [Timer.constructor i f b n m ia ta (now w)]) w)
  | CheckTimers => Some (checkTimers w)
  | ExecuteAction self d => Some (executeAction self d w)
  | Cancel self => Some (update self Timer.cancel w)
  | ResetElapsedSeconds self => Some (update self Timer.resetElapsedSeconds w)
  | ResetLastExecutionDate self =>
      Some (update self (Timer.resetLastExecutionDate (now w)) w)
  | CancelTimer i => Some (cancelTimer i w)
  | CancelTimers l => Some (cancelTimers l w)
  | CancelBlockTimers => Some (cancelBlockTimers w)
  | ResetInactivityTimers => resetInactivityTimers resetDepth w
  | SetTimers l =>
      Some (set_timerManager
              (TimerManager.mkTimerManager l
                 (TimerManager.lastExecutionDate (timerManager w))
                 (TimerManager.checkTimerInterval (timerManager w))) w)
  | ActionFulfilled self =>
      if existsb (Nat.eqb self) (awaiting w)
      then Some (executeAction_resume self
                   (set_awaiting (removeFirst self (awaiting w)) w))
      else None
  | ActionRejected self =>
      if existsb (Nat.eqb self) (awaiting w)
      then Some (set_awaiting (removeFirst self (awaiting w)) w)
      else None
  | ClockReads d => Some (set_now d w)
  end.

Fixpoint run (ops : list Op) (w : World) : option World :=
  match ops with
  | [] => Some w
  | o :: ops' =>
      match step o w with
      | Some w' => run ops' w'
      | None => None
      end
  end.

(** The world at start-up: no [Timer] yet, a fresh [TimerManager]. *)
Definition boot (today lastClear : Date) (rxd : bool) : World :=
  {| heap := [];
     timerManager := TimerManager.constructor today;
     inactivityLastClearDate := lastClear;
     rxdLibraryIsAvailable := rxd;
     now := today;
     awaiting := [];
     trace := [] |}.

(** The calls made to the collaborators between [w] and a later [w']. *)
Definition callsSince (w w' : World) : list Event :=
  drop (length (trace w)) (trace w').

(** The object left by [executeAction(currentDate)] on an active timer [t],
    and the calls it makes, when the clock reads [today]. *)
Definition ticked (currentDate today : Date) (t : Timer.Timer) : Timer.Timer :=
  let t1 := Timer.set_elapsedSeconds (Timer.elapsedSeconds t + 1) t in
  if Timer.fires currentDate t1
  then Timer.set_lastExecutionDate today (Timer.set_isActionRunning true t1)
  else t1.

Definition tickCalls (self : addr) (currentDate : Date) (t : Timer.Timer) : list Event :=
  match Timer.tickAction t with Some f => [TickActionCall f self] | None => [] end
  ++ if Timer.fires currentDate (Timer.set_elapsedSeconds (Timer.elapsedSeconds t + 1) t)
     then [ActionCall (Timer.action t) self] else [].

(** ** Invariants of the store and of the record of calls *)

(** Only inactivity timers are active. *)
Definition activeOnlyInactivity (w : World) : Prop :=
  forall a t, heap w !! a = Some t ->
    Timer.isActive t = true -> Timer.isInactivityTimer t = true.

(** Only the actions of inactivity timers have been called. *)
Definition calledOnlyInactivity (w : World) : Prop :=
  forall f a, ActionCall f a ∈ trace w ->
    exists t, heap w !! a = Some t /\ Timer.isInactivityTimer t = true.

(** No object has changed its classification. *)
Definition sameKind (w w' : World) : Prop :=
  forall a t, heap w !! a = Some t ->
    exists t', heap w' !! a = Some t' /\
      Timer.isInactivityTimer t' = Timer.isInactivityTimer t.

(** Every object active in [w'] was there, and active, in [w]. *)
Definition noActivation (w w' : World) : Prop :=
  forall a t', heap w' !! a = Some t' -> Timer.isActive t' = true ->
    exists t, heap w !! a = Some t /\ Timer.isActive t = true.

(** Every action called between [w] and [w'] belongs to a timer active in [w]. *)
Definition onlyActiveCalled (w w' : World) : Prop :=
  forall f a, ActionCall f a ∈ trace w' ->
    ActionCall f a ∈ trace w \/
    exists t, heap w !! a = Some t /\ Timer.isActive t = true.

(** A transition that activates nothing. *)
Definition calm (w w' : World) : Prop :=
  sameKind w w' /\ noActivation w w' /\ onlyActiveCalled w w'.

Definition safe (w : World) : Prop :=
  activeOnlyInactivity w /\ calledOnlyInactivity w.

(** What [resetInactivityTimers] may do: activate inactivity timers. *)
Definition revival (w w' : World) : Prop :=
  sameKind w w' /\
  (forall a t', heap w' !! a = Some t' -> Timer.isActive t' = true ->
     (exists t, heap w !! a = Some t /\ Timer.isActive t = true) \/
     Timer.isInactivityTimer t' = true) /\
  (forall f a, ActionCall f a ∈ trace w' -> ActionCall f a ∈ trace w).

(** ** Sample worlds *)

(** A five-second inactivity timer, active, last executed at date 0, with
    the clock 6 seconds later. *)
Definition pollTimer : Timer.Timer :=
  Timer.set_isActive true (Timer.constructor "poll" 7%nat false 5 None true (Some 9%nat) 0).

Definition catchUpWorld : World :=
  {| heap := [pollTimer];
     timerManager := TimerManager.mkTimerManager [0%nat] 0 1000;
     inactivityLastClearDate := 0;
     rxdLibraryIsAvailable := false;
     now := 6000;
     awaiting := [];
     trace := [] |}.

(** The same world, half a second after the last pass. *)
Definition earlyWorld : World := set_now 500 catchUpWorld.

(** A manager with a period of 1090 ms, 690 ms after its last pass. *)
Definition tieWorld : World :=
  {| heap := [];
     timerManager := TimerManager.mkTimerManager [] 0 1090;
     inactivityLastClearDate := 0;
     rxdLibraryIsAvailable := false;
     now := 690;
     awaiting := [];
     trace := [] |}.


(** A save timer and an inactivity timer are added, the user moves after a
    minute, five passes run, the action of the inactivity timer is called
    and settles, and the timer is cancelled. *)
Definition sampleRun : list Op :=
  [ AddTimer "save" 1%nat false 60 None false None;
    AddTimer "idle" 2%nat false 5 (Some 9600) true None;
    ClockReads 60000;
    ResetInactivityTimers;
    ClockReads 61000; CheckTimers;
    ClockReads 62000; CheckTimers;
    ClockReads 63000; CheckTimers;
    ClockReads 64000; CheckTimers;
    ClockReads 65000; CheckTimers;
    ActionFulfilled 1%nat;
    CancelTimer "idle" ].

(** ** class TimerSettings *)

Module TimerSettings.

Record TimerSettings : Type := mkTimerSettings {
  timerName : string;
  intervalSeconds : Z;
  maxSeconds : option Z
}.

End TimerSettings.

(** [setupTimers] also writes to [console.error]: the lines written are kept
    beside the world. *)
Record Host : Type := mkHost {
  world : World;
  errors : list string
}.

(** The line [setupTimers] writes for a name that is not a function of
    [player.timerActions]. *)
Definition unknownTimer (timerName : string) : string :=
  String.append "'player.timerActions."
    (String.append timerName "' is not a known timer function.").

Section SetupTimers.

(** [player.timerActions]: the entry under a name, when it is a function, is
    host code that registers a timer from an interval and a bound. *)
Variable timerActions : string -> option (Z -> option Z -> World -> World).

(** The body of the [forEach] of [setupTimers]. *)
Definition setupTimer (x : TimerSettings.TimerSettings) (h : Host) : Host :=
  if 0 <? TimerSettings.intervalSeconds x then
    match timerActions (TimerSettings.timerName x) with
    | Some register =>
        mkHost (register (TimerSettings.intervalSeconds x) (TimerSettings.maxSeconds x)
                  (world h))
               (errors h)
    | None => mkHost (world h) (errors h ++ [unknownTimer (TimerSettings.timerName x)])
    end
  else h.

(** [static setupTimers(timerSettings)], [None] being [null]. *)
Definition setupTimers (timerSettings : option (list TimerSettings.TimerSettings))
    (h : Host) : Host :=
  match timerSettings with
  | None => h
  | Some l => fold_left (fun h x => setupTimer x h) l h
  end.

End SetupTimers.

(** The settings [setupTimers] acts on, and those it reports. *)
Definition positive (x : TimerSettings.TimerSettings) : bool :=
  0 <? TimerSettings.intervalSeconds x.

Definition unknown (timerActions : string -> option (Z -> option Z -> World -> World))
    (x : TimerSettings.TimerSettings) : bool :=
  match timerActions (TimerSettings.timerName x) with Some _ => false | None => true end.

(** A table that knows one name, and settings that name two others. *)
Definition sampleTable (name : string) : option (Z -> option Z -> World -> World) :=
  if String.eqb name "save"
  then Some (fun n m w => addTimer "save" 1%nat false n m false None w)
  else None.

Definition strangers : list TimerSettings.TimerSettings :=
  [ TimerSettings.mkTimerSettings "intro" 10 (Some 10);
    TimerSettings.mkTimerSettings "idle" 0 None ].

(** ** Ticks of one timer *)

(** A tick of the timer at [self] at date [d], whose action, when it is
    called, is fulfilled before anything else happens. *)
Definition settledTick (self : addr) (d : Date) (w : World) : World :=
  let w1 := executeAction self d (set_now d w) in
  if existsb (Nat.eqb self) (awaiting w1)
  then executeAction_resume self (set_awaiting (removeFirst self (awaiting w1)) w1)
  else w1.

(** [k] such ticks, one second apart, the first one second after [start]. *)
Fixpoint secondTicks (self : addr) (start : Date) (k : nat) (w : World) : World :=
  match k with
  | O => w
  | S k' => settledTick self (start + 1000 * Z.of_nat k) (secondTicks self start k' w)
  end.

Definition isActionCallOf (self : addr) (e : Event) : bool :=
  match e with
  | ActionCall _ a => Nat.eqb a self
  | _ => false
  end.

(** How often the action of the timer at [self] is called in [evs]. *)
Definition actionCalls (self : addr) (evs : list Event) : nat :=
  length (List.filter (isActionCallOf self) evs).

(** ** Further invariants *)

(** At most one call of a timer's action is in flight, and the timer knows
    it. *)
Definition oneInFlight (w : World) : Prop :=
  NoDup (awaiting w) /\
  forall a, a ∈ awaiting w ->
    exists t, heap w !! a = Some t /\ Timer.isActionRunning t = true.

(** The fields of a [Timer] that are written by its constructor only. *)
Definition sameSettings (t t' : Timer.Timer) : Prop :=
  Timer.id t' = Timer.id t /\
  Timer.action t' = Timer.action t /\
  Timer.isBlockTimer t' = Timer.isBlockTimer t /\
  Timer.intervalSeconds t' = Timer.intervalSeconds t /\
  Timer.isInactivityTimer t' = Timer.isInactivityTimer t /\
  Timer.tickAction t' = Timer.tickAction t /\
  Timer.createdDate t' = Timer.createdDate t.

(** Every object of [w] is still there in [w'], with the same settings. *)
Definition settingsKept (w w' : World) : Prop :=
  forall a t, heap w !! a = Some t ->
    exists t', heap w' !! a = Some t' /\ sameSettings t t'.

(** The timer at [self] is stuck: it believes its action is running, and no
    call of it is in flight. *)
Definition stuck (self : addr) (w : World) : Prop :=
  (self ∉ awaiting w) /\
  exists t, heap w !! self = Some t /\ Timer.isActionRunning t = true.


(** The timer at [self] is still stuck in [w'], and its action has not been
    called since [w]. *)
Definition staysStuck (self : addr) (w w' : World) : Prop :=
  stuck self w' /\ actionCalls self (trace w') = actionCalls self (trace w).


(** What follows the rejection in the example of a rejected action: a reset
    of the inactivity timers a minute later, then five seconds of passes. *)
Definition afterRejection : list Op :=
  [ ClockReads 66000; ResetInactivityTimers;
    ClockReads 67000; CheckTimers; ClockReads 68000; CheckTimers;
    ClockReads 69000; CheckTimers; ClockReads 70000; CheckTimers;
    ClockReads 71000; CheckTimers ].

(** Two block timers and a save timer, all active, at start-up plus one
    second. *)
Definition activeTimer (i : string) (f : Callback) (b : bool) : Timer.Timer :=
  Timer.set_isActive true (Timer.constructor i f b 10 None false None 0).

Definition blockWorld : World :=
  {| heap := [activeTimer "intro" 1%nat true; activeTimer "ad" 2%nat true;
              activeTimer "save" 3%nat false];
     timerManager := TimerManager.mkTimerManager [0%nat; 1%nat; 2%nat] 0 1000;
     inactivityLastClearDate := 0;
     rxdLibraryIsAvailable := true;
     now := 1000;
     awaiting := [];
     trace := [] |}.


(** * Properties of [Timer] *)

Section TimerFacts.

Import Timer.

Lemma remainingSeconds_bounded (t : Timer) (m : Z) :
  maxSeconds t = Some m ->
  remainingSeconds t = Some (Z.max 0 (m - elapsedSeconds t)).
Proof. unfold remainingSeconds. intros ->. reflexivity. Qed.

Lemma isComplete_bounded (t : Timer) (m : Z) :
  maxSeconds t = Some m ->
  isComplete t = (0 <=? Z.max 0 (m - elapsedSeconds t))
                 && (Z.max 0 (m - elapsedSeconds t) <=? 4800).
Proof. unfold isComplete, remainingSeconds. intros ->. reflexivity. Qed.

(** C2. A timer with [maxSeconds = null] is never complete, whatever
    [elapsedSeconds] is; a timer with a bound [m] has
    [remainingSeconds = max(0, m - elapsedSeconds)] and is complete exactly
    when that value lies in the closed range from 0 to 4800. *)
Theorem isComplete_spec (t : Timer) :
  (maxSeconds t = None -> isComplete t = false) /\
  (forall m, maxSeconds t = Some m ->
     remainingSeconds t = Some (Z.max 0 (m - elapsedSeconds t)) /\
     (isComplete t = true <-> 0 <= Z.max 0 (m - elapsedSeconds t) <= 4800)).
Proof.
  split.
  - unfold isComplete. intros ->. reflexivity.
  - intros m Hm. split; [exact (remainingSeconds_bounded t m Hm)|].
    rewrite (isComplete_bounded t m Hm), andb_true_iff, !Z.leb_le.
    reflexivity.
Qed.

(** An indefinite timer that has run for a day, and a bounded one with
    5000 seconds left. *)
Lemma isComplete_spec_witness :
  isComplete (set_elapsedSeconds 86400
                (constructor "save" 0%nat false 60 None false None 0)) = false /\
  ~ isComplete (set_elapsedSeconds 0
                  (constructor "intro" 0%nat true 10 (Some 5000) false None 0)) = true.
Proof.
  split.
  - apply isComplete_spec. reflexivity.
  - intros H.
    pose proof (proj2 (isComplete_spec
      (set_elapsedSeconds 0
         (constructor "intro" 0%nat true 10 (Some 5000) false None 0)))
      5000 eq_refl) as [_ Hiff].
    apply Hiff in H. cbn in H. lia.
Defined.

(** C3. A new [Timer] starts with [elapsedSeconds = 4800]; hence one built
    with a bound of at most 9600 is complete as soon as it is built. *)
Theorem constructor_elapsed_complete
    (i : string) (f : Callback) (b : bool) (n : Z) (ia : bool)
    (ta : option Callback) (today : Date) :
  (forall m, elapsedSeconds (constructor i f b n m ia ta today) = 4800) /\
  (forall m, m <= 9600 ->
     isComplete (constructor i f b n (Some m) ia ta today) = true).
Proof.
  split; [reflexivity|].
  intros m Hm.
  rewrite (isComplete_bounded (constructor i f b n (Some m) ia ta today) m eq_refl).
  cbn [elapsedSeconds constructor].
  apply andb_true_iff. rewrite !Z.leb_le. lia.
Qed.

Lemma constructor_elapsed_complete_witness :
  isComplete (constructor "intro" 0%nat true 10 (Some 9600) false None 0) = true.
Proof.
  apply (proj2 (constructor_elapsed_complete "intro" 0%nat true 10 false None 0)).
  lia.
Defined.

Lemma cancel_cancel (t : Timer) : cancel (cancel t) = cancel t.
Proof. reflexivity. Qed.

(** C9. [cancel()] clears [isActive] and sets [maxSeconds] to the current
    [elapsedSeconds]; right after it [remainingSeconds] is 0 and
    [isComplete] is true; a second [cancel()] changes nothing. *)
Theorem cancel_spec (t : Timer) :
  isActive (cancel t) = false /\
  maxSeconds (cancel t) = Some (elapsedSeconds t) /\
  elapsedSeconds (cancel t) = elapsedSeconds t /\
  remainingSeconds (cancel t) = Some 0 /\
  isComplete (cancel t) = true /\
  cancel (cancel t) = cancel t.
Proof.
  repeat split.
  - unfold remainingSeconds. cbn. f_equal. lia.
  - rewrite (isComplete_bounded (cancel t) (elapsedSeconds t) eq_refl). cbn.
    rewrite Z.sub_diag. reflexivity.
Qed.

End TimerFacts.

(** * Properties of [executeAction] *)

Section ExecuteAction.

Import Timer.



Lemma executeAction_inactive (self : addr) (currentDate : Date) (w : World) (t : Timer) :
  heap w !! self = Some t -> isActive t = false ->
  executeAction self currentDate w = w.
Proof. unfold executeAction. intros -> ->. reflexivity. Qed.

Lemma executeAction_absent (self : addr) (currentDate : Date) (w : World) :
  heap w !! self = None -> executeAction self currentDate w = w.
Proof. unfold executeAction. intros ->. reflexivity. Qed.

Lemma executeAction_active (self : addr) (currentDate : Date) (w : World) (t : Timer) :
  heap w !! self = Some t -> isActive t = true ->
  let w' := executeAction self currentDate w in
  heap w' = alter (fun _ => ticked currentDate (now w) t) self (heap w) /\
  trace w' = trace w ++ tickCalls self currentDate t /\
  timerManager w' = timerManager w /\
  inactivityLastClearDate w' = inactivityLastClearDate w /\
  now w' = now w /\
  awaiting w' = awaiting w ++
    (if fires currentDate (set_elapsedSeconds (elapsedSeconds t + 1) t)
     then [self] else []).
Proof.
  intros Hl Ha. unfold executeAction, ticked, tickCalls. rewrite Hl, Ha. cbn [negb].
  cbn [tickAction set_elapsedSeconds action].
  destruct (fires currentDate _); destruct (tickAction t);
    cbn; rewrite ?list_alter_alter_eq, ?app_nil_r, <- ?app_assoc; auto 10.
Qed.




End ExecuteAction.

(** * The store under [update] and [forEach] *)

Section Store.

Lemma forEach_frame (f : Timer.Timer -> Timer.Timer) (l : list addr) (w : World) :
  timerManager (forEach f l w) = timerManager w /\
  inactivityLastClearDate (forEach f l w) = inactivityLastClearDate w /\
  rxdLibraryIsAvailable (forEach f l w) = rxdLibraryIsAvailable w /\
  now (forEach f l w) = now w /\
  awaiting (forEach f l w) = awaiting w /\
  trace (forEach f l w) = trace w.
Proof.
  unfold forEach. revert w.
  induction l as [|a l IH]; intros w; cbn [fold_left]; [tauto|].
  destruct (IH (update a f w)) as (-> & -> & -> & -> & -> & ->). cbn. tauto.
Qed.

(** A method that does nothing when run twice is run, in effect, once on
    each selected object, however often its address occurs. *)
Lemma forEach_lookup (f : Timer.Timer -> Timer.Timer) (l : list addr) (w : World)
    (a : addr) :
  (forall t, f (f t) = f t) ->
  heap (forEach f l w) !! a
  = (if existsb (Nat.eqb a) l then f else fun t => t) <$> heap w !! a.
Proof.
  intros Hidem. unfold forEach. revert w.
  induction l as [|b l IH]; intros w; cbn [fold_left existsb].
  - destruct (heap w !! a); reflexivity.
  - rewrite IH. unfold update. cbn [heap set_heap].
    destruct (Nat.eqb_spec a b) as [->|Hne]; cbn [orb].
    + rewrite list_lookup_alter_eq.
      destruct (heap w !! b) as [t|]; cbn; [|reflexivity].
      destruct (existsb _ l); [rewrite Hidem|]; reflexivity.
    + rewrite list_lookup_alter_ne by congruence. reflexivity.
Qed.

Lemma forEach_length (f : Timer.Timer -> Timer.Timer) (l : list addr) (w : World) :
  length (heap (forEach f l w)) = length (heap w).
Proof.
  unfold forEach. revert w.
  induction l as [|b l IH]; intros w; cbn [fold_left]; [reflexivity|].
  rewrite IH. unfold update. cbn. apply length_alter.
Qed.

Lemma existsb_filter_holds (p : Timer.Timer -> bool) (h : list Timer.Timer)
    (l : list addr) (a : addr) (t : Timer.Timer) :
  h !! a = Some t ->
  existsb (Nat.eqb a) (List.filter (holds p h) l) = existsb (Nat.eqb a) l && p t.
Proof.
  intros Ha. induction l as [|b l IH]; cbn [List.filter existsb]; [reflexivity|].
  destruct (Nat.eqb_spec a b) as [<-|Hne].
  - unfold holds at 1. rewrite Ha. destruct (p t) eqn:Hp; cbn [existsb orb andb].
    + rewrite Nat.eqb_refl. reflexivity.
    + rewrite IH, ?Hp, !andb_false_r. reflexivity.
  - destruct (holds p h b); cbn [existsb orb]; rewrite IH;
      [destruct (Nat.eqb_spec a b); [contradiction|]|]; reflexivity.
Qed.

End Store.

(** * Properties of the [TimerManager] methods *)

Section Manager.

Import Timer.

Lemma Qltb_lt (x y : Q) : Qltb x y = true <-> (x < y)%Q.
Proof.
  unfold Qltb. rewrite Qlt_alt.
  destruct (x ?= y)%Q; split; congruence.
Qed.

(** C6. When [checkTimers] runs less than [checkTimerInterval/1000 - 0.4]
    seconds after [lastExecutionDate] (the distance in time being taken
    in absolute value, as the method takes it), it returns at once:
    [lastExecutionDate], the collection, every [Timer] and the record of
    calls are what they were, no [executeAction] having been reached. *)
Theorem checkTimers_too_early (w : World) :
  (timeDiffSec (now w) (TimerManager.lastExecutionDate (timerManager w))
   < inject_Z (TimerManager.checkTimerInterval (timerManager w)) / inject_Z 1000
     - (4 # 10))%Q ->
  skipsPass w = true /\ checkTimers w = w /\ callsSince w (checkTimers w) = [].
Proof.
  intros H.
  assert (Hs : skipsPass w = true).
  { unfold skipsPass. cbn zeta. apply orb_true_iff. left.
    apply Qltb_lt. unfold TimerManager.timerTolerance.
    apply Qplus_lt_l with (z := (- (4 # 10))%Q).
    rewrite <- Qplus_assoc, Qplus_opp_r, Qplus_0_r. exact H. }
  assert (Hw : checkTimers w = w).
  { unfold checkTimers. rewrite Hs. reflexivity. }
  split; [exact Hs|]. split; [exact Hw|].
  rewrite Hw. unfold callsSince. apply drop_all.
Qed.

Lemma resetInactivityTimers_recent (depth : nat) (w : World) :
  Z.abs (now w - inactivityLastClearDate w) < 10000 ->
  resetInactivityTimers (S depth) w = Some w.
Proof.
  intros H. cbn [resetInactivityTimers].
  apply Z.ltb_lt in H. rewrite H. reflexivity.
Qed.

(** The nested call finds the clear date just recorded and returns. *)
Lemma resetInactivityTimers_due (depth : nat) (w : World) :
  10000 <= Z.abs (now w - inactivityLastClearDate w) ->
  resetInactivityTimers (S (S depth)) w
  = Some (forEach (reactivate (now w))
            (List.filter (holds isInactivityTimer (heap w))
               (TimerManager.timers (timerManager w)))
            (emit (ClearAlerts [warningAlertName w])
               (set_inactivityLastClearDate (now w) w))).
Proof.
  intros H.
  change (resetInactivityTimers (S (S depth)) w) with
    (let currentDate := now w in
     if Z.abs (currentDate - inactivityLastClearDate w) <? 10000 then Some w
     else
       let w1 := set_inactivityLastClearDate currentDate w in
       match resetInactivityTimers (S depth) w1 with
       | None => None
       | Some w2 =>
           let w3 := emit (ClearAlerts [warningAlertName w2]) w2 in
           Some (forEach (reactivate (now w3))
                   (List.filter (holds isInactivityTimer (heap w3))
                      (TimerManager.timers (timerManager w3))) w3)
       end).
  cbn zeta. apply Z.ltb_ge in H. rewrite H.
  rewrite resetInactivityTimers_recent; [reflexivity|].
  cbn. rewrite Z.sub_diag. reflexivity.
Qed.

(** Two nested calls suffice: a larger bound gives the same result. *)
Lemma resetInactivityTimers_depth (depth : nat) (w : World) :
  resetInactivityTimers (S (S depth)) w = resetInactivityTimers resetDepth w.
Proof.
  unfold resetDepth.
  destruct (Z.ltb_spec (Z.abs (now w - inactivityLastClearDate w)) 10000) as [H|H].
  - rewrite !resetInactivityTimers_recent by exact H. reflexivity.
  - rewrite !resetInactivityTimers_due by exact H. reflexivity.
Qed.

Lemma reactivate_idem (today : Date) (t : Timer) :
  reactivate today (reactivate today t) = reactivate today t.
Proof. reflexivity. Qed.

(** C10. [resetInactivityTimers] is rate-limited by the recorded date of
    the last clear.  Called less than 10 seconds from it, it returns
    without touching any timer.  Called 10 seconds or more from it, it
    records the current date as the last clear and, for every timer of the
    collection with [isInactivityTimer], sets [elapsedSeconds] to 0,
    [lastExecutionDate] to the current date and [isActive] to true; the
    timers that are not inactivity timers stay as they were. *)
Theorem resetInactivityTimers_spec (depth : nat) (w : World) :
  (Z.abs (now w - inactivityLastClearDate w) < 10000 ->
   resetInactivityTimers (S depth) w = Some w) /\
  (10000 <= Z.abs (now w - inactivityLastClearDate w) ->
   exists w', resetInactivityTimers (S (S depth)) w = Some w' /\
     inactivityLastClearDate w' = now w /\
     timerManager w' = timerManager w /\
     length (heap w') = length (heap w) /\
     forall a t, heap w !! a = Some t ->
       exists t', heap w' !! a = Some t' /\
         (a ∈ TimerManager.timers (timerManager w) -> isInactivityTimer t = true ->
          elapsedSeconds t' = 0 /\ lastExecutionDate t' = now w /\ isActive t' = true
          /\ t' = reactivate (now w) t) /\
         (isInactivityTimer t = false -> t' = t)).
Proof.
  split; [apply resetInactivityTimers_recent|].
  intros H. eexists. split; [apply resetInactivityTimers_due; exact H|].
  match goal with |- context [forEach ?f ?l ?w0] =>
    destruct (forEach_frame f l w0) as (Hm & Hc & _);
    pose proof (forEach_length f l w0) as Hlen;
    pose proof (fun a => forEach_lookup f l w0 a (reactivate_idem (now w))) as Hlk
  end.
  rewrite Hm, Hc, Hlen. cbn [emit set_inactivityLastClearDate heap timerManager
                            inactivityLastClearDate] in *.
  repeat split.
  intros a t Ha. rewrite Hlk, Ha.
  rewrite (existsb_filter_holds _ _ _ _ _ Ha). cbn [fmap option_fmap option_map].
  eexists. split; [reflexivity|]. split.
  - intros Hin Hia. rewrite Hia, andb_true_r.
    assert (He : existsb (Nat.eqb a) (TimerManager.timers (timerManager w)) = true).
    { apply existsb_exists. exists a. split; [|apply Nat.eqb_refl].
      apply list_elem_of_In. exact Hin. }
    rewrite He. repeat split.
  - intros Hia. rewrite Hia, andb_false_r. reflexivity.
Qed.

(** Half a second after the last pass, with the period at one second. *)
Lemma checkTimers_too_early_witness :
  skipsPass earlyWorld = true /\ checkTimers earlyWorld = earlyWorld /\
  callsSince earlyWorld (checkTimers earlyWorld) = [].
Proof. apply checkTimers_too_early. reflexivity. Defined.

(** Six seconds after start-up nothing is reset; sixty seconds after, the
    inactivity timer is. *)
Lemma resetInactivityTimers_spec_witness :
  resetInactivityTimers 1 catchUpWorld = Some catchUpWorld /\
  exists w', resetInactivityTimers 2 (set_now 60000 catchUpWorld) = Some w' /\
    heap w' !! 0%nat = Some (reactivate 60000 pollTimer).
Proof.
  split.
  - apply (proj1 (resetInactivityTimers_spec 0 catchUpWorld)). reflexivity.
  - destruct (proj2 (resetInactivityTimers_spec 0 (set_now 60000 catchUpWorld)))
      as (w' & Hw' & _ & _ & _ & Hall); [vm_compute; discriminate|].
    exists w'. split; [exact Hw'|].
    destruct (Hall 0%nat pollTimer eq_refl) as (t' & Ht' & Hin & _).
    rewrite Ht'. f_equal. apply Hin; [|reflexivity].
    apply list_elem_of_singleton. reflexivity.
Defined.

(** C8. [addTimer] with [intervalSeconds <= 0], or with a [maxSeconds]
    that is not null and is [<= 0], adds no [Timer]: the store and the
    collection are unchanged, one warning is logged, and the call returns
    normally. *)
Theorem addTimer_rejects (i : string) (f : Callback) (b : bool) (n : Z)
    (m : option Z) (ia : bool) (ta : option Callback) (w : World) :
  n <= 0 \/ (exists k, m = Some k /\ k <= 0) ->
  heap (addTimer i f b n m ia ta w) = heap w /\
  timerManager (addTimer i f b n m ia ta w) = timerManager w /\
  callsSince w (addTimer i f b n m ia ta w) = [ConsoleWarn (InvalidTimer i n m)] /\
  step (AddTimer i f b n m ia ta) w = Some (addTimer i f b n m ia ta w).
Proof.
  intros H.
  assert (Hg : (n <=? 0) || match m with Some k => k <=? 0 | None => false end = true).
  { apply orb_true_iff. destruct H as [H|(k & -> & H)]; [left|right];
      apply Z.leb_le; exact H. }
  cbn [step]. unfold addTimer, callsSince. rewrite Hg.
  cbn [emit heap timerManager trace].
  rewrite drop_app_length. repeat split.
Qed.

Lemma addTimer_rejects_witness :
  heap (addTimer "save" 1%nat false 0 None false None catchUpWorld) = heap catchUpWorld /\
  heap (addTimer "intro" 1%nat true 10 (Some 0) false None catchUpWorld)
  = heap catchUpWorld.
Proof.
  split.
  - apply addTimer_rejects. left. lia.
  - apply addTimer_rejects. right. exists 0. split; [reflexivity|lia].
Defined.

(** What [addTimer] does with valid arguments and no active timer of the
    same id: the new object is appended, and it is not active. *)
Lemma addTimer_accepts (i : string) (f : Callback) (b : bool) (n : Z)
    (m : option Z) (ia : bool) (ta : option Callback) (w : World) :
  0 < n -> (forall k, m = Some k -> 0 < k) -> noActiveTimer i w = true ->
  heap (addTimer i f b n m ia ta w)
  = heap w ++ [constructor i f b n m ia ta (now w)] /\
  TimerManager.timers (timerManager (addTimer i f b n m ia ta w))
  = TimerManager.timers (timerManager w) ++ [length (heap w)] /\
  trace (addTimer i f b n m ia ta w) = trace w /\
  isActive (constructor i f b n m ia ta (now w)) = false.
Proof.
  intros Hn Hm Hd. unfold addTimer.
  assert (Hg : (n <=? 0) || match m with Some k => k <=? 0 | None => false end = false).
  { apply orb_false_iff. split; [apply Z.leb_gt; exact Hn|].
    destruct m as [k|]; [|reflexivity]. apply Z.leb_gt. apply Hm. reflexivity. }
  rewrite Hg, Hd. cbn. repeat split.
Qed.

(** C1, on the code.  After [addTimer("save", action, false, 60, null,
    false)] on a fresh manager the new timer is in the collection but is
    not active; a second call with the same id adds a second object; and
    the first pass of [checkTimers], one second later, drops the timer
    without its action having been called. *)
Theorem addTimer_new_timer_not_active :
  let w := addTimer "save" 1%nat false 60 None false None (boot 0 0 false) in
  TimerManager.timers (timerManager w) = [0%nat] /\
  isActive <$> heap w !! 0%nat = Some false /\
  TimerManager.timers
    (timerManager (addTimer "save" 1%nat false 60 None false None w)) = [0%nat; 1%nat] /\
  TimerManager.timers (timerManager (checkTimers (set_now 1000 w))) = [] /\
  trace (checkTimers (set_now 1000 w)) = [].
Proof. vm_compute. repeat split. Qed.


End Manager.

(** * What a pass and a run preserve *)

Section Invariants.

Import Timer.

Lemma executeAction_lookup (self : addr) (d : Date) (w : World) (a : addr) :
  heap (executeAction self d w) !! a = heap w !! a \/
  exists t, heap w !! a = Some t /\ isActive t = true /\ a = self /\
    heap (executeAction self d w) !! a = Some (ticked d (now w) t).
Proof.
  destruct (heap w !! self) as [t|] eqn:Hl;
    [|left; rewrite executeAction_absent by exact Hl; reflexivity].
  destruct (isActive t) eqn:Ha;
    [|left; rewrite (executeAction_inactive self d w t Hl Ha); reflexivity].
  destruct (executeAction_active self d w t Hl Ha) as (Hh & _).
  rewrite Hh. destruct (decide (self = a)) as [<-|Hne].
  - right. exists t. rewrite list_lookup_alter_eq, Hl. auto.
  - left. apply list_lookup_alter_ne. exact Hne.
Qed.

Lemma ticked_flags (d today : Date) (t : Timer) :
  isActive (ticked d today t) = isActive t /\
  isInactivityTimer (ticked d today t) = isInactivityTimer t.
Proof. unfold ticked. cbn zeta. destruct (fires d _); split; reflexivity. Qed.

(** [executeAction], up to its [await], leaves both flags of every object
    as they are. *)
Lemma executeAction_flags (self : addr) (d : Date) (w : World) (a : addr) (t : Timer) :
  heap w !! a = Some t ->
  exists t', heap (executeAction self d w) !! a = Some t' /\
    isActive t' = isActive t /\ isInactivityTimer t' = isInactivityTimer t.
Proof.
  intros Ha.
  destruct (executeAction_lookup self d w a) as [H|(t0 & Ht0 & _ & _ & H)].
  - exists t. rewrite H. auto.
  - rewrite Ha in Ht0. injection Ht0 as <-.
    exists (ticked d (now w) t). split; [exact H|apply ticked_flags].
Qed.

Lemma executeAction_timerManager (self : addr) (d : Date) (w : World) :
  timerManager (executeAction self d w) = timerManager w.
Proof.
  destruct (heap w !! self) as [t|] eqn:Hl;
    [|rewrite executeAction_absent by exact Hl; reflexivity].
  destruct (isActive t) eqn:Ha;
    [|rewrite (executeAction_inactive self d w t Hl Ha); reflexivity].
  apply (executeAction_active self d w t Hl Ha).
Qed.

Lemma executeAll_timerManager (d : Date) (l : list addr) (w : World) :
  timerManager (executeAll d l w) = timerManager w.
Proof.
  unfold executeAll. revert w.
  induction l as [|x l IH]; intros w; cbn [fold_left]; [reflexivity|].
  rewrite IH. apply executeAction_timerManager.
Qed.

Lemma executeAll_flags (d : Date) (l : list addr) (w : World) (a : addr) (t : Timer) :
  heap w !! a = Some t ->
  exists t', heap (executeAll d l w) !! a = Some t' /\
    isActive t' = isActive t /\ isInactivityTimer t' = isInactivityTimer t.
Proof.
  unfold executeAll. revert w t.
  induction l as [|x l IH]; intros w t Ha; cbn [fold_left].
  - exists t. auto.
  - destruct (executeAction_flags x d w a t Ha) as (t1 & H1 & <- & <-).
    apply IH. exact H1.
Qed.

Lemma holds_true (p : Timer -> bool) (h : list Timer) (a : addr) :
  holds p h a = true <-> exists t, h !! a = Some t /\ p t = true.
Proof.
  unfold holds. destruct (h !! a) as [t|].
  - split; [eauto|]. intros (t' & [= <-] & H). exact H.
  - split; [discriminate|]. intros (t' & [=] & _).
Qed.

(** C7. After a pass of [checkTimers] that was not skipped, every timer
    of the collection is active or is an inactivity timer: none is both
    inactive and not an inactivity timer. *)
Theorem checkTimers_prunes (w : World) (a : addr) :
  skipsPass w = false ->
  a ∈ TimerManager.timers (timerManager (checkTimers w)) ->
  exists t, heap (checkTimers w) !! a = Some t /\
    (isActive t = true \/ isInactivityTimer t = true) /\
    ~ (isActive t = false /\ isInactivityTimer t = false).
Proof.
  intros Hs. unfold checkTimers. rewrite Hs. cbn zeta.
  rewrite executeAll_timerManager. cbn [timerManager set_timerManager TimerManager.timers].
  intros Hin. apply list_elem_of_In, filter_In in Hin as [_ Hp].
  apply holds_true in Hp as (t & Ht & Hp).
  match goal with |- context [executeAll ?d ?l ?w1] =>
    destruct (executeAll_flags d l w1 a t Ht) as (t' & Ht' & Hact & Hkind)
  end.
  exists t'. split; [exact Ht'|]. rewrite Hact, Hkind.
  apply orb_true_iff in Hp. split; [exact Hp|].
  intros [H1 H2]. rewrite H1, H2 in Hp. destruct Hp; discriminate.
Qed.

(** A pass in [catchUpWorld], six seconds after the last one, keeps the
    inactivity timer at address 0. *)
Lemma checkTimers_prunes_witness :
  exists t, heap (checkTimers catchUpWorld) !! 0%nat = Some t /\
    (isActive t = true \/ isInactivityTimer t = true) /\
    ~ (isActive t = false /\ isInactivityTimer t = false).
Proof.
  apply checkTimers_prunes; [reflexivity|].
  vm_compute. apply list_elem_of_here.
Defined.

(** ** Calm transitions *)

Lemma calm_refl (w : World) : calm w w.
Proof.
  split; [|split].
  - intros a t Ha. eauto.
  - intros a t Ha Hact. eauto.
  - intros f a H. left. exact H.
Qed.

Lemma calm_trans (w1 w2 w3 : World) : calm w1 w2 -> calm w2 w3 -> calm w1 w3.
Proof.
  intros (K12 & A12 & C12) (K23 & A23 & C23). split; [|split].
  - intros a t Ha. destruct (K12 a t Ha) as (t2 & H2 & E2).
    destruct (K23 a t2 H2) as (t3 & H3 & E3). exists t3. split; congruence.
  - intros a t3 H3 Hact. destruct (A23 a t3 H3 Hact) as (t2 & H2 & Hact2).
    exact (A12 a t2 H2 Hact2).
  - intros f a H. destruct (C23 f a H) as [H2|(t2 & H2 & Hact2)].
    + exact (C12 f a H2).
    + right. exact (A12 a t2 H2 Hact2).
Qed.

(** Changes outside the store that call no action. *)
Lemma calm_frame (w w' : World) :
  heap w' = heap w ->
  (forall f a, ActionCall f a ∈ trace w' -> ActionCall f a ∈ trace w) ->
  calm w w'.
Proof.
  intros Hh Ht. split; [|split].
  - intros a t Ha. rewrite Hh. eauto.
  - intros a t Ha Hact. rewrite Hh in Ha. eauto.
  - intros f a H. left. exact (Ht f a H).
Qed.

Lemma calm_update (a : addr) (f : Timer -> Timer) (w : World) :
  (forall t, isInactivityTimer (f t) = isInactivityTimer t) ->
  (forall t, isActive (f t) = true -> isActive t = true) ->
  calm w (update a f w).
Proof.
  intros Hk Hq. unfold update. split; [|split].
  - intros b t Hb. cbn [heap set_heap].
    destruct (decide (a = b)) as [<-|Hne].
    + exists (f t). rewrite list_lookup_alter_eq, Hb. auto.
    + exists t. rewrite list_lookup_alter_ne by exact Hne. auto.
  - intros b t' Hb Hact. cbn [heap set_heap] in Hb.
    destruct (decide (a = b)) as [<-|Hne].
    + rewrite list_lookup_alter_eq in Hb.
      destruct (heap w !! a) as [t|]; [|discriminate].
      injection Hb as <-. eauto.
    + rewrite list_lookup_alter_ne in Hb by exact Hne. eauto.
  - intros g b H. left. exact H.
Qed.

Lemma calm_forEach (f : Timer -> Timer) (l : list addr) (w : World) :
  (forall t, isInactivityTimer (f t) = isInactivityTimer t) ->
  (forall t, isActive (f t) = true -> isActive t = true) ->
  calm w (forEach f l w).
Proof.
  intros Hk Hq. unfold forEach. revert w.
  induction l as [|a l IH]; intros w; cbn [fold_left]; [apply calm_refl|].
  eapply calm_trans; [apply (calm_update a f w Hk Hq)|apply IH].
Qed.

Lemma tickCalls_action (self : addr) (d : Date) (t : Timer) (f : Callback) (a : addr) :
  ActionCall f a ∈ tickCalls self d t -> a = self.
Proof.
  unfold tickCalls. intros H. apply elem_of_app in H as [H|H].
  - destruct (tickAction t); [|inversion H].
    apply list_elem_of_singleton in H. discriminate.
  - destruct (fires d _); [|inversion H].
    apply list_elem_of_singleton in H. congruence.
Qed.

Lemma calm_executeAction (self : addr) (d : Date) (w : World) : calm w (executeAction self d w).
Proof.
  split; [|split].
  - intros a t Ha. destruct (executeAction_flags self d w a t Ha) as (t' & H & _ & E).
    eauto.
  - intros a t' Ha Hact.
    destruct (executeAction_lookup self d w a) as [H|(t & Ht & Hat & _ & _)].
    + rewrite H in Ha. eauto.
    + eauto.
  - intros f a H.
    destruct (heap w !! self) as [t|] eqn:Hl;
      [|rewrite executeAction_absent in H by exact Hl; left; exact H].
    destruct (isActive t) eqn:Ha;
      [|rewrite (executeAction_inactive self d w t Hl Ha) in H; left; exact H].
    destruct (executeAction_active self d w t Hl Ha) as (_ & Htr & _).
    rewrite Htr in H. apply elem_of_app in H as [H|H]; [left; exact H|].
    apply tickCalls_action in H as ->. right. eauto.
Qed.

Lemma calm_executeAll (d : Date) (l : list addr) (w : World) : calm w (executeAll d l w).
Proof.
  unfold executeAll. revert w.
  induction l as [|x l IH]; intros w; cbn [fold_left]; [apply calm_refl|].
  eapply calm_trans; [apply calm_executeAction|apply IH].
Qed.

Lemma calm_checkTimers (w : World) : calm w (checkTimers w).
Proof.
  unfold checkTimers. destruct (skipsPass w); [apply calm_refl|]. cbn zeta.
  eapply calm_trans; [|apply calm_executeAll].
  apply calm_frame; [reflexivity|auto].
Qed.

Lemma calm_emit_other (e : Event) (w : World) :
  (forall f a, e <> ActionCall f a) -> calm w (emit e w).
Proof.
  intros He. apply calm_frame; [reflexivity|].
  intros f a H. cbn [emit trace] in H.
  apply elem_of_app in H as [H|H]; [exact H|].
  apply list_elem_of_singleton in H. symmetry in H. destruct (He f a H).
Qed.

(** A new object is not active. *)
Lemma calm_alloc (t0 : Timer) (w w' : World) :
  isActive t0 = false -> heap w' = heap w ++ [t0] -> trace w' = trace w ->
  calm w w'.
Proof.
  intros Hnew Hh Htr. split; [|split].
  - intros a t Ha. exists t. split; [|reflexivity].
    rewrite Hh. apply lookup_app_l_Some. exact Ha.
  - intros a t' Ha Hact. rewrite Hh in Ha.
    apply lookup_app_Some in Ha as [Ha|[_ Ha]]; [eauto|].
    apply list_lookup_singleton_Some in Ha as [_ <-]. congruence.
  - intros g a H. left. rewrite <- Htr. exact H.
Qed.

Lemma calm_addTimer (i : string) (f : Callback) (b : bool) (n : Z)
    (m : option Z) (ia : bool) (ta : option Callback) (w : World) :
  calm w (addTimer i f b n m ia ta w).
Proof.
  unfold addTimer.
  destruct (_ || _); [apply calm_emit_other; discriminate|].
  destruct (noActiveTimer i w); [|apply calm_emit_other; discriminate].
  apply (calm_alloc (constructor i f b n m ia ta (now w))); reflexivity.
Qed.

Lemma afterAction_quiet (t : Timer) :
  isInactivityTimer (afterAction t) = isInactivityTimer t /\
  (isActive (afterAction t) = true -> isActive t = true).
Proof.
  unfold afterAction. cbn zeta. destruct (isComplete _); cbn; split; auto.
  discriminate.
Qed.

(** Every operation but [resetInactivityTimers] is calm. *)
Lemma calm_step (o : Op) (w w' : World) :
  o <> ResetInactivityTimers -> step o w = Some w' -> calm w w'.
Proof.
  intros Ho Hs. destruct o; cbn [step] in Hs; try (injection Hs as <-).
  - apply calm_addTimer.
  - match goal with |- calm _ (set_heap (_ ++ [?t0]) _) =>
      apply (calm_alloc t0); reflexivity
    end.
  - apply calm_checkTimers.
  - apply calm_executeAction.
  - apply calm_update; [reflexivity|discriminate].
  - apply calm_update; [reflexivity|auto].
  - apply calm_update; [reflexivity|auto].
  - apply calm_forEach; [reflexivity|discriminate].
  - apply calm_forEach; [reflexivity|discriminate].
  - apply calm_forEach; [reflexivity|discriminate].
  - contradiction.
  - apply calm_frame; [reflexivity|auto].
  - destruct (existsb _ _); [injection Hs as <-|discriminate].
    eapply calm_trans; [|apply calm_update; apply afterAction_quiet].
    apply calm_frame; [reflexivity|auto].
  - destruct (existsb _ _); [injection Hs as <-|discriminate].
    apply calm_frame; [reflexivity|auto].
  - apply calm_frame; [reflexivity|auto].
Qed.


(** ** The invariant of a run *)

Lemma safe_boot (today lastClear : Date) (rxd : bool) : safe (boot today lastClear rxd).
Proof.
  split.
  - intros a t Ha. cbn in Ha. rewrite lookup_nil in Ha. discriminate.
  - intros f a H. cbn in H. inversion H.
Qed.

Lemma safe_calm (w w' : World) : safe w -> calm w w' -> safe w'.
Proof.
  intros [I1 I2] (K & A & C). split.
  - intros a t' Ha Hact. destruct (A a t' Ha Hact) as (t & Ht & Hat).
    destruct (K a t Ht) as (t'' & Ht'' & E). rewrite Ha in Ht''. injection Ht'' as <-.
    rewrite E. exact (I1 a t Ht Hat).
  - intros f a H.
    assert (Hw : exists t, heap w !! a = Some t /\ isInactivityTimer t = true).
    { destruct (C f a H) as [H0|(t & Ht & Hat)]; [exact (I2 f a H0)|].
      exists t. split; [exact Ht|exact (I1 a t Ht Hat)]. }
    destruct Hw as (t & Ht & Hk). destruct (K a t Ht) as (t' & Ht' & E).
    exists t'. split; [exact Ht'|congruence].
Qed.

Lemma revival_reset (w w' : World) :
  resetInactivityTimers resetDepth w = Some w' -> revival w w'.
Proof.
  unfold resetDepth.
  destruct (Z.ltb_spec (Z.abs (now w - inactivityLastClearDate w)) 10000) as [H|H].
  - rewrite resetInactivityTimers_recent by exact H. intros [= <-].
    split; [|split]; [intros a t Ha| |]; eauto.
  - rewrite resetInactivityTimers_due by exact H. intros [= <-].
    match goal with |- revival _ (forEach ?f ?l ?w0) =>
      destruct (forEach_frame f l w0) as (_ & _ & _ & _& _ & Htr);
      pose proof (fun a => forEach_lookup f l w0 a (reactivate_idem (now w))) as Hlk
    end.
    cbn [emit set_inactivityLastClearDate heap trace] in *.
    split; [|split].
    + intros a t Ha. rewrite Hlk, Ha. cbn. eexists. split; [reflexivity|].
      destruct (existsb _ _); reflexivity.
    + intros a t' Ha Hact. rewrite Hlk in Ha.
      destruct (heap w !! a) as [t|] eqn:Ht; [|discriminate].
      rewrite (existsb_filter_holds _ _ _ _ _ Ht) in Ha. cbn in Ha. injection Ha as <-.
      destruct (isInactivityTimer t) eqn:Hk.
      * right. destruct (existsb _ _); exact Hk.
      * rewrite andb_false_r in Hact. left. eauto.
    + intros f a Hin. rewrite Htr in Hin.
      apply elem_of_app in Hin as [Hin|Hin]; [exact Hin|].
      apply list_elem_of_singleton in Hin. discriminate.
Qed.

Lemma safe_revival (w w' : World) : safe w -> revival w w' -> safe w'.
Proof.
  intros [I1 I2] (K & A & C). split.
  - intros a t' Ha Hact. destruct (A a t' Ha Hact) as [(t & Ht & Hat)|Hk]; [|exact Hk].
    destruct (K a t Ht) as (t'' & Ht'' & E). rewrite Ha in Ht''. injection Ht'' as <-.
    rewrite E. exact (I1 a t Ht Hat).
  - intros f a H. destruct (I2 f a (C f a H)) as (t & Ht & Hk).
    destruct (K a t Ht) as (t' & Ht' & E).
    exists t'. split; [exact Ht'|congruence].
Qed.

Lemma Op_reset_dec (o : Op) : {o = ResetInactivityTimers} + {o <> ResetInactivityTimers}.
Proof. destruct o; (left; reflexivity) || (right; discriminate). Qed.

Lemma safe_step (o : Op) (w w' : World) : safe w -> step o w = Some w' -> safe w'.
Proof.
  intros Hw Hs. destruct (Op_reset_dec o) as [->|Ho].
  - exact (safe_revival w w' Hw (revival_reset w w' Hs)).
  - exact (safe_calm w w' Hw (calm_step o w w' Ho Hs)).
Qed.

Lemma safe_run (ops : list Op) (w w' : World) : safe w -> run ops w = Some w' -> safe w'.
Proof.
  revert w. induction ops as [|o ops IH]; intros w Hw; cbn [run].
  - intros [= <-]. exact Hw.
  - destruct (step o w) as [w1|] eqn:Hs; [|discriminate].
    apply IH. exact (safe_step o w w1 Hw Hs).
Qed.

(** C4. In every run of the public operations from start-up, the only
    operation after which a timer is active that was not active before is
    [resetInactivityTimers], and the timers it activates are inactivity
    timers.  Hence, in every world the run reaches, a timer with
    [isInactivityTimer = false] is not active, and its action has never
    been called. *)
Theorem only_inactivity_timers_run (today lastClear : Date) (rxd : bool)
    (ops : list Op) (w : World) :
  run ops (boot today lastClear rxd) = Some w ->
  (forall a t, heap w !! a = Some t -> isInactivityTimer t = false ->
     isActive t = false /\ forall f, ActionCall f a ∉ trace w) /\
  (forall o w', step o w = Some w' ->
     forall a t', heap w' !! a = Some t' -> isActive t' = true ->
       (exists t, heap w !! a = Some t /\ isActive t = true) \/
       (o = ResetInactivityTimers /\ isInactivityTimer t' = true)).
Proof.
  intros Hrun.
  destruct (safe_run ops _ w (safe_boot today lastClear rxd) Hrun) as [I1 I2].
  split.
  - intros a t Ha Hk. split.
    + destruct (isActive t) eqn:Hact; [|reflexivity].
      rewrite (I1 a t Ha Hact) in Hk. discriminate.
    + intros f Hin. destruct (I2 f a Hin) as (t0 & Ht0 & Hk0). congruence.
  - intros o w' Hs a t' Ha Hact. destruct (Op_reset_dec o) as [->|Ho].
    + destruct (revival_reset w w' Hs) as (_ & A & _).
      destruct (A a t' Ha Hact) as [H|H]; [left; exact H|right; auto].
    + destruct (calm_step o w w' Ho Hs) as (_ & A & _).
      left. exact (A a t' Ha Hact).
Qed.

(** At the end of [sampleRun] the save timer, at address 0, is inactive
    and was never run, although a minute of passes went by. *)
Lemma only_inactivity_timers_run_witness :
  exists w, run sampleRun (boot 0 0 false) = Some w /\
    (isActive <$> heap w !! 0%nat) = Some false /\
    forall f, ActionCall f 0%nat ∉ trace w.
Proof.
  destruct (run sampleRun (boot 0 0 false)) as [w|] eqn:Hrun;
    [|vm_compute in Hrun; discriminate].
  exists w. split; [reflexivity|].
  destruct (only_inactivity_timers_run 0 0 false sampleRun w Hrun) as [H _].
  destruct (heap w !! 0%nat) as [t|] eqn:Ht.
  - destruct (H 0%nat t Ht) as [Hact Htr].
    + vm_compute in Hrun. injection Hrun as <-. vm_compute in Ht.
      injection Ht as <-. reflexivity.
    + cbn. rewrite Hact. split; [reflexivity|exact Htr].
  - vm_compute in Hrun. injection Hrun as <-. vm_compute in Ht. discriminate.
Defined.


End Invariants.


(** * More on [Timer] *)

Section TimerMore.

Import Timer.

(** X1. What is left of a bounded timer is never negative, it is 0 exactly from
    the moment [elapsedSeconds] reaches the bound, and the timer is complete
    from then on. *)
Theorem remainingSeconds_range (t : Timer) (m : Z) :
  maxSeconds t = Some m ->
  exists r, remainingSeconds t = Some r /\
    0 <= r /\ (r = 0 <-> m <= elapsedSeconds t) /\
    (m <= elapsedSeconds t -> isComplete t = true).
Proof.
  intros Hm. exists (Z.max 0 (m - elapsedSeconds t)).
  split; [exact (remainingSeconds_bounded t m Hm)|].
  split; [lia|]. split; [lia|].
  intros Hle. rewrite (isComplete_bounded t m Hm).
  replace (Z.max 0 (m - elapsedSeconds t)) with 0 by lia. reflexivity.
Qed.

Lemma remainingSeconds_range_witness :
  remainingSeconds (cancel pollTimer) = Some 0.
Proof.
  destruct (remainingSeconds_range (cancel pollTimer) 4800 eq_refl)
    as (r & Hr & _ & Hz & _).
  rewrite Hr. f_equal. apply Hz. cbn. lia.
Defined.

(** X2. When the awaited action has settled, the timer is no longer running; an
    indefinite timer keeps its [isActive], and a bounded one stays active
    only if more than 4800 seconds remain. Nothing else changes. *)
Theorem afterAction_spec (t : Timer) :
  isActionRunning (afterAction t) = false /\
  isActive (afterAction t)
  = isActive t && match maxSeconds t with
                  | None => true
                  | Some m => 4800 <? m - elapsedSeconds t
                  end /\
  maxSeconds (afterAction t) = maxSeconds t /\
  elapsedSeconds (afterAction t) = elapsedSeconds t /\
  lastExecutionDate (afterAction t) = lastExecutionDate t /\
  sameSettings t (afterAction t).
Proof.
  unfold afterAction. cbn zeta.
  destruct (maxSeconds t) as [m|] eqn:Hm.
  - rewrite (isComplete_bounded (set_isActionRunning false t) m Hm).
    cbn [elapsedSeconds set_isActionRunning].
    destruct (Z.ltb_spec 4800 (m - elapsedSeconds t)) as [H|H].
    + replace (Z.max 0 (m - elapsedSeconds t) <=? 4800) with false
        by (symmetry; apply Z.leb_gt; lia).
      rewrite andb_false_r, andb_true_r. cbn. rewrite Hm. repeat split.
    + replace (0 <=? Z.max 0 (m - elapsedSeconds t)) with true
        by (symmetry; apply Z.leb_le; lia).
      replace (Z.max 0 (m - elapsedSeconds t) <=? 4800) with true
        by (symmetry; apply Z.leb_le; lia).
      rewrite andb_false_r. cbn. rewrite Hm. repeat split.
  - unfold isComplete. cbn [maxSeconds set_isActionRunning]. rewrite Hm.
    rewrite andb_true_r. cbn. rewrite Hm. repeat split.
Qed.

End TimerMore.

(** * More on [executeAction] *)

Section ExecuteActionMore.

Import Timer.

Lemma fires_running (d : Date) (t : Timer) :
  isActionRunning t = true -> fires d t = false.
Proof. unfold fires. intros ->. rewrite andb_false_r. reflexivity. Qed.

Lemma notActionCall_tickCalls (self : addr) (d : Date) (t : Timer) :
  fires d (set_elapsedSeconds (elapsedSeconds t + 1) t) = false ->
  forall f a, ActionCall f a ∉ tickCalls self d t.
Proof.
  intros Hf f a Hin. unfold tickCalls in Hin. rewrite Hf, app_nil_r in Hin.
  destruct (tickAction t); [|inversion Hin].
  apply list_elem_of_singleton in Hin. discriminate.
Qed.

(** X3. Only the object at [self] is written by [executeAction]: the other
    objects, the size of the store, the manager and the date of the last
    clear are as before. *)
Theorem executeAction_frame (self : addr) (d : Date) (w : World) :
  (forall a, a <> self -> heap (executeAction self d w) !! a = heap w !! a) /\
  length (heap (executeAction self d w)) = length (heap w) /\
  timerManager (executeAction self d w) = timerManager w /\
  inactivityLastClearDate (executeAction self d w) = inactivityLastClearDate w /\
  now (executeAction self d w) = now w.
Proof.
  destruct (heap w !! self) as [t|] eqn:Hl;
    [|rewrite executeAction_absent by exact Hl; auto].
  destruct (isActive t) eqn:Ha;
    [|rewrite (executeAction_inactive self d w t Hl Ha); auto].
  destruct (executeAction_active self d w t Hl Ha) as (Hh & _ & Hm & Hc & Hn & _).
  rewrite Hh, Hm, Hc, Hn, length_alter. repeat split.
  intros a Hne. apply list_lookup_alter_ne. congruence.
Qed.

Lemma executeAction_frame_witness :
  heap (executeAction 0%nat 1000 blockWorld) !! 1%nat = heap blockWorld !! 1%nat.
Proof. apply (proj1 (executeAction_frame 0%nat 1000 blockWorld)). discriminate. Defined.


(** X4. Re-entrancy.  Once [executeAction] has called the action of a timer, a
    further [executeAction] on that timer, at whatever date, before the
    action has settled counts its tick and calls no action. *)
Theorem executeAction_not_reentrant (self : addr) (d d' : Date) (w : World) (t : Timer) :
  heap w !! self = Some t ->
  ActionCall (action t) self ∈ callsSince w (executeAction self d w) ->
  (forall f a, ActionCall f a ∉
     callsSince (executeAction self d w) (executeAction self d' (executeAction self d w))) /\
  elapsedSeconds <$> heap (executeAction self d' (executeAction self d w)) !! self
  = Some (elapsedSeconds t + 2) /\
  awaiting (executeAction self d' (executeAction self d w))
  = awaiting (executeAction self d w).
Proof.
  intros Hl Hin.
  destruct (isActive t) eqn:Ha.
  2:{ rewrite (executeAction_inactive self d w t Hl Ha) in Hin.
      unfold callsSince in Hin. rewrite drop_all in Hin. inversion Hin. }
  destruct (executeAction_active self d w t Hl Ha) as (Hh & Htr & _).
  unfold callsSince in Hin. rewrite Htr, drop_app_length in Hin.
  destruct (fires d (set_elapsedSeconds (elapsedSeconds t + 1) t)) eqn:Hf.
  2:{ destruct (notActionCall_tickCalls self d t Hf _ _ Hin). }
  set (w1 := executeAction self d w) in *.
  set (t1 := set_lastExecutionDate (now w)
               (set_isActionRunning true
                  (set_elapsedSeconds (elapsedSeconds t + 1) t))).
  assert (Hl1 : heap w1 !! self = Some t1).
  { rewrite Hh, list_lookup_alter_eq, Hl. cbn. unfold ticked. cbn zeta.
    rewrite Hf. reflexivity. }
  assert (Hf2 : fires d' (set_elapsedSeconds (elapsedSeconds t1 + 1) t1) = false).
  { apply fires_running. reflexivity. }
  destruct (executeAction_active self d' w1 t1 Hl1 Ha) as (Hh2 & Htr2 & _ & _ & _ & Haw2).
  rewrite Hf2 in Haw2.
  split; [|split].
  - intros f a. unfold callsSince. rewrite Htr2, drop_app_length.
    apply notActionCall_tickCalls. exact Hf2.
  - rewrite Hh2, list_lookup_alter_eq, Hl1. cbn [fmap option_fmap option_map].
    unfold ticked. cbn zeta. rewrite Hf2. cbn. f_equal. lia.
  - rewrite Haw2, app_nil_r. reflexivity.
Qed.

(** In [catchUpWorld] the action is called at the first tick; a second tick
    93 seconds later only moves the counter, from 4801 to 4802. *)
Lemma executeAction_not_reentrant_witness :
  elapsedSeconds <$>
    heap (executeAction 0%nat 99000 (executeAction 0%nat 6000 catchUpWorld)) !! 0%nat
  = Some 4802 /\
  awaiting (executeAction 0%nat 99000 (executeAction 0%nat 6000 catchUpWorld))
  = awaiting (executeAction 0%nat 6000 catchUpWorld).
Proof.
  apply (executeAction_not_reentrant 0%nat 6000 99000 catchUpWorld pollTimer eq_refl).
  vm_compute. apply list_elem_of_further, list_elem_of_here.
Defined.

End ExecuteActionMore.

(** * The comparisons in milliseconds *)

Section Milliseconds.

Lemma catchUp_ms (a x y : Z) :
  Qle_bool (inject_Z a) (timeDiffSec x y) = (1000 * a <=? Z.abs (x - y)).
Proof.
  apply eq_true_iff_eq. rewrite Qle_bool_iff, Z.leb_le.
  unfold timeDiffSec, Qle, Qdiv, Qmult, Qinv, inject_Z. cbn.
  lia.
Qed.

Lemma fires_ms (d : Date) (t : Timer.Timer) :
  Timer.fires d t
  = Timer.isActive t && negb (Timer.isActionRunning t) &&
    (remIsZero (Timer.elapsedSeconds t) (Timer.intervalSeconds t)
     || (1000 * (Timer.intervalSeconds t + 1) <=? Z.abs (d - Timer.lastExecutionDate t))).
Proof. unfold Timer.fires. rewrite catchUp_ms. reflexivity. Qed.

Lemma guard_lt_ms (x y i : Z) :
  Qltb (timeDiffSec x y + TimerManager.timerTolerance) (inject_Z i / inject_Z 1000)
  = (Z.abs (x - y) + 400 <? i).
Proof.
  unfold TimerManager.timerTolerance.
  apply eq_true_iff_eq. rewrite Qltb_lt, Z.ltb_lt.
  unfold timeDiffSec, Qlt, Qdiv, Qmult, Qinv, Qplus, inject_Z. cbn.
  lia.
Qed.

Lemma guard_eq_ms (x y i : Z) :
  Qeq_bool (timeDiffSec x y + TimerManager.timerTolerance) (inject_Z i / inject_Z 1000)
  = (Z.abs (x - y) + 400 =? i).
Proof.
  unfold TimerManager.timerTolerance.
  apply eq_true_iff_eq. rewrite Qeq_bool_iff, Z.eqb_eq.
  unfold timeDiffSec, Qeq, Qdiv, Qmult, Qinv, Qplus, inject_Z. cbn.
  lia.
Qed.

(** The guard in whole milliseconds: below the period it skips, above it
    runs, and at a tie the doubles decide. *)
Lemma skipsPass_millis (w : World) :
  skipsPass w
  = (Z.abs (now w - TimerManager.lastExecutionDate (timerManager w)) + 400
     <? TimerManager.checkTimerInterval (timerManager w))
    || ((Z.abs (now w - TimerManager.lastExecutionDate (timerManager w)) + 400
         =? TimerManager.checkTimerInterval (timerManager w))
        && skipsPassDouble w).
Proof. unfold skipsPass. cbn zeta. rewrite guard_lt_ms, guard_eq_ms. reflexivity. Qed.

Lemma skipsPass_below (w : World) :
  Z.abs (now w - TimerManager.lastExecutionDate (timerManager w)) + 400
  < TimerManager.checkTimerInterval (timerManager w) ->
  skipsPass w = true.
Proof.
  intros H. rewrite skipsPass_millis. apply Z.ltb_lt in H. rewrite H. reflexivity.
Qed.

(** X6. The drift guard of [checkTimers] in whole milliseconds.  A pass is
    skipped when the distance to the last pass, plus 400 ms, is below
    [checkTimerInterval], and is run when it is above.  With the period of
    the constructor, 1000, a pass is skipped exactly when the distance is
    below 600 ms. *)
Theorem skipsPass_ms (w : World) :
  (Z.abs (now w - TimerManager.lastExecutionDate (timerManager w)) + 400
   < TimerManager.checkTimerInterval (timerManager w) ->
   skipsPass w = true) /\
  (TimerManager.checkTimerInterval (timerManager w)
   < Z.abs (now w - TimerManager.lastExecutionDate (timerManager w)) + 400 ->
   skipsPass w = false) /\
  (TimerManager.checkTimerInterval (timerManager w) = 1000 ->
   (skipsPass w = true <->
    Z.abs (now w - TimerManager.lastExecutionDate (timerManager w)) < 600)).
Proof.
  split; [apply skipsPass_below|]. split.
  - intros H. rewrite skipsPass_millis.
    replace (_ <? _) with false by (symmetry; apply Z.ltb_ge; lia).
    replace (_ =? _) with false by (symmetry; apply Z.eqb_neq; lia).
    reflexivity.
  - intros Hi. rewrite skipsPass_millis, Hi.
    destruct (Z.ltb_spec (Z.abs (now w - TimerManager.lastExecutionDate (timerManager w))
                          + 400) 1000) as [Hlt|Hge]; cbn [orb].
    + split; [intros _; lia|reflexivity].
    + destruct (Z.eqb_spec (Z.abs (now w - TimerManager.lastExecutionDate (timerManager w))
                            + 400) 1000) as [He|Hne]; cbn [andb].
      * assert (Hd : skipsPassDouble w = false).
        { unfold skipsPassDouble. cbn zeta. rewrite Hi.
          replace (Z.abs (now w - TimerManager.lastExecutionDate (timerManager w)))
            with 600 by lia.
          vm_compute. reflexivity. }
        rewrite Hd. split; [discriminate|lia].
      * split; [discriminate|lia].
Qed.

(** A tie decided by rounding: 0.69 + 0.4 is the double below 1.09, and the
    pass is skipped; with the period 1000, 0.6 + 0.4 is 1 and the pass is
    run. *)
Example skipsPass_tie :
  skipsPass tieWorld = true /\ skipsPass (set_now 600 catchUpWorld) = false.
Proof. split; vm_compute; reflexivity. Qed.

(** Half a second after the last pass the pass is skipped; six seconds
    after, it is run. *)
Lemma skipsPass_ms_witness :
  skipsPass earlyWorld = true /\ skipsPass catchUpWorld = false.
Proof.
  split.
  - apply (proj2 (proj2 (skipsPass_ms earlyWorld)) eq_refl). reflexivity.
  - apply (proj1 (proj2 (skipsPass_ms catchUpWorld))). reflexivity.
Defined.

End Milliseconds.

(** * A timer ticked once a second *)

Section Periodic.

Import Timer.

Lemma existsb_eqb_elem (a : addr) (l : list addr) :
  existsb (Nat.eqb a) l = true <-> a ∈ l.
Proof.
  rewrite existsb_exists, list_elem_of_In. split.
  - intros (x & Hx & He). apply Nat.eqb_eq in He. subst. exact Hx.
  - intros H. exists a. split; [exact H|apply Nat.eqb_refl].
Qed.

Lemma removeFirst_notin (a : addr) (l : list addr) : a ∉ l -> removeFirst a l = l.
Proof.
  induction l as [|x l IH]; intros H; cbn [removeFirst]; [reflexivity|].
  apply not_elem_of_cons in H as [Hne Hl].
  destruct (Nat.eqb_spec x a); [congruence|]. rewrite IH by exact Hl. reflexivity.
Qed.

Lemma removeFirst_app_last (a : addr) (l : list addr) :
  a ∉ l -> removeFirst a (l ++ [a]) = l.
Proof.
  induction l as [|x l IH]; intros H; cbn [removeFirst app].
  - rewrite Nat.eqb_refl. reflexivity.
  - apply not_elem_of_cons in H as [Hne Hl].
    destruct (Nat.eqb_spec x a); [congruence|]. rewrite IH by exact Hl. reflexivity.
Qed.

Lemma actionCalls_app (self : addr) (l1 l2 : list Event) :
  actionCalls self (l1 ++ l2) = (actionCalls self l1 + actionCalls self l2)%nat.
Proof. unfold actionCalls. rewrite List.filter_app, length_app. reflexivity. Qed.

Lemma actionCalls_tickCalls (self : addr) (d : Date) (t : Timer) :
  actionCalls self (tickCalls self d t)
  = if fires d (set_elapsedSeconds (elapsedSeconds t + 1) t) then 1%nat else 0%nat.
Proof.
  unfold tickCalls. rewrite actionCalls_app.
  destruct (tickAction t); destruct (fires d _); cbn; rewrite ?Nat.eqb_refl; reflexivity.
Qed.

(** What [settledTick] does to an active timer that is not running and has
    no call in flight. *)
Lemma settledTick_active (self : addr) (d : Date) (w : World) (t : Timer) :
  heap w !! self = Some t -> isActive t = true -> self ∉ awaiting w ->
  let t1 := set_elapsedSeconds (elapsedSeconds t + 1) t in
  heap (settledTick self d w) !! self
  = Some (if fires d t1
          then afterAction (set_lastExecutionDate d (set_isActionRunning true t1))
          else t1) /\
  awaiting (settledTick self d w) = awaiting w /\
  trace (settledTick self d w) = trace w ++ tickCalls self d t.
Proof.
  intros Hl Ha Hnot t1. unfold settledTick. cbn zeta.
  destruct (executeAction_active self d (set_now d w) t Hl Ha)
    as (Hh & Htr & _ & _ & _ & Haw).
  cbn [heap trace awaiting now set_now] in Hh, Htr, Haw.
  unfold ticked in Hh. cbn zeta in Hh. fold t1 in Hh, Haw.
  destruct (fires d t1) eqn:Hf.
  - rewrite Haw.
    replace (existsb (Nat.eqb self) (awaiting w ++ [self])) with true
      by (symmetry; apply existsb_eqb_elem, elem_of_app; right; apply list_elem_of_here).
    rewrite removeFirst_app_last by exact Hnot.
    unfold executeAction_resume, update. cbn [heap set_heap set_awaiting awaiting trace].
    rewrite Hh, Htr, list_lookup_alter_eq, list_lookup_alter_eq, Hl. auto.
  - rewrite app_nil_r in Haw. rewrite Haw.
    replace (existsb (Nat.eqb self) (awaiting w)) with false
      by (symmetry; apply not_true_is_false; rewrite existsb_eqb_elem; exact Hnot).
    rewrite Hh, Htr, Haw, list_lookup_alter_eq, Hl. auto.
Qed.

Lemma rem_shift (e n j : Z) :
  0 <= e -> 0 < n -> Z.rem e n = 0 -> 0 <= j -> Z.rem (e + j) n = j mod n.
Proof.
  intros He Hn Hr Hj.
  rewrite Z.rem_mod_nonneg in Hr by lia.
  rewrite Z.rem_mod_nonneg by lia.
  rewrite Z.add_mod, Hr, Z.add_0_l, Z.mod_mod by lia. reflexivity.
Qed.

Lemma set_elapsedSeconds_same (t : Timer) : set_elapsedSeconds (elapsedSeconds t) t = t.
Proof. destruct t. reflexivity. Qed.

Section Aligned.

Variables (self : addr) (T : Date) (w : World) (t : Timer).
Hypothesis Hl : heap w !! self = Some t.
Hypothesis Hactive : isActive t = true.
Hypothesis Hidle : isActionRunning t = false.
Hypothesis Hforever : maxSeconds t = None.
Hypothesis Hn : 0 < intervalSeconds t.
Hypothesis He : 0 <= elapsedSeconds t.
Hypothesis Haligned : Z.rem (elapsedSeconds t) (intervalSeconds t) = 0.
Hypothesis Hlast : lastExecutionDate t = T.
Hypothesis Hnot : self ∉ awaiting w.

Lemma fires_at (j : Z) :
  0 < j <= intervalSeconds t ->
  fires (T + 1000 * j) (set_elapsedSeconds (elapsedSeconds t + j) t)
  = (j =? intervalSeconds t).
Proof.
  intros Hj. rewrite fires_ms.
  cbn [isActive isActionRunning elapsedSeconds intervalSeconds lastExecutionDate
       set_elapsedSeconds].
  rewrite Hactive, Hidle, Hlast. cbn [negb andb].
  replace (1000 * (intervalSeconds t + 1) <=? Z.abs (T + 1000 * j - T)) with false
    by (symmetry; apply Z.leb_gt; lia).
  rewrite orb_false_r. unfold remIsZero, jsRem.
  replace (intervalSeconds t =? 0) with false by (symmetry; apply Z.eqb_neq; lia).
  rewrite (rem_shift _ _ j He Hn Haligned) by lia.
  destruct (Z.eqb_spec j (intervalSeconds t)) as [->|Hne].
  - rewrite Z.mod_same by lia. reflexivity.
  - rewrite Z.mod_small by lia. apply Z.eqb_neq. lia.
Qed.

(** Before the interval is over nothing is called and only the counter moves. *)
Lemma secondTicks_quiet (k : nat) :
  Z.of_nat k < intervalSeconds t ->
  heap (secondTicks self T k w) !! self
  = Some (set_elapsedSeconds (elapsedSeconds t + Z.of_nat k) t) /\
  awaiting (secondTicks self T k w) = awaiting w /\
  exists evs, trace (secondTicks self T k w) = trace w ++ evs /\
              actionCalls self evs = 0%nat.
Proof.
  induction k as [|k IH]; intros Hk.
  - cbn [secondTicks]. rewrite Z.add_0_r, set_elapsedSeconds_same.
    split; [exact Hl|]. split; [reflexivity|].
    exists []. rewrite app_nil_r. split; reflexivity.
  - destruct IH as (Hh & Haw & evs & Htr & Hc); [lia|].
    cbn [secondTicks].
    set (wk := secondTicks self T k w) in *.
    assert (Hnotk : self ∉ awaiting wk) by (rewrite Haw; exact Hnot).
    destruct (settledTick_active self (T + 1000 * Z.of_nat (S k)) wk _ Hh Hactive Hnotk)
      as (Hh' & Haw' & Htr').
    cbn [elapsedSeconds set_elapsedSeconds] in Hh'.
    assert (Hf : fires (T + 1000 * Z.of_nat (S k))
                   (set_elapsedSeconds (elapsedSeconds t + Z.of_nat (S k)) t) = false).
    { rewrite fires_at by lia. apply Z.eqb_neq. lia. }
    replace (elapsedSeconds t + Z.of_nat k + 1) with (elapsedSeconds t + Z.of_nat (S k))
      in Hh' by lia.
    change (set_elapsedSeconds (elapsedSeconds t + Z.of_nat (S k))
              (set_elapsedSeconds (elapsedSeconds t + Z.of_nat k) t))
      with (set_elapsedSeconds (elapsedSeconds t + Z.of_nat (S k)) t) in Hh'.
    rewrite Hf in Hh'.
    split; [exact Hh'|]. split; [congruence|].
    eexists. rewrite Htr', Htr, <- app_assoc. split; [reflexivity|].
    rewrite actionCalls_app, Hc, actionCalls_tickCalls.
    cbn [elapsedSeconds set_elapsedSeconds].
    replace (elapsedSeconds t + Z.of_nat k + 1) with (elapsedSeconds t + Z.of_nat (S k))
      by lia.
    change (set_elapsedSeconds (elapsedSeconds t + Z.of_nat (S k))
              (set_elapsedSeconds (elapsedSeconds t + Z.of_nat k) t))
      with (set_elapsedSeconds (elapsedSeconds t + Z.of_nat (S k)) t).
    rewrite Hf. reflexivity.
Qed.

End Aligned.

(** X5. An active, idle, indefinite timer whose counter is a multiple of its
    interval and whose last execution was at [T], ticked once a second from
    [T] on, each action being fulfilled at once: its action is not called
    during the first [intervalSeconds - 1] ticks and is called exactly once
    at tick [intervalSeconds]; the timer is then in the same situation
    again, [intervalSeconds] seconds later. *)
Theorem secondTicks_fires_once (self : addr) (T : Date) (w : World) (t : Timer) :
  heap w !! self = Some t ->
  isActive t = true -> isActionRunning t = false -> maxSeconds t = None ->
  0 < intervalSeconds t ->
  0 <= elapsedSeconds t -> Z.rem (elapsedSeconds t) (intervalSeconds t) = 0 ->
  lastExecutionDate t = T ->
  self ∉ awaiting w ->
  (forall k, Z.of_nat k < intervalSeconds t ->
     actionCalls self (callsSince w (secondTicks self T k w)) = 0%nat) /\
  actionCalls self
    (callsSince w (secondTicks self T (Z.to_nat (intervalSeconds t)) w)) = 1%nat /\
  heap (secondTicks self T (Z.to_nat (intervalSeconds t)) w) !! self
  = Some (set_lastExecutionDate (T + 1000 * intervalSeconds t)
            (set_elapsedSeconds (elapsedSeconds t + intervalSeconds t) t)) /\
  awaiting (secondTicks self T (Z.to_nat (intervalSeconds t)) w) = awaiting w.
Proof.
  intros Hl Hactive Hidle Hforever Hn He Haligned Hlast Hnot.
  pose proof (secondTicks_quiet self T w t Hl Hactive Hidle Hn He Haligned Hlast Hnot)
    as Hquiet.
  split.
  - intros k Hk. destruct (Hquiet k Hk) as (_ & _ & evs & Htr & Hc).
    unfold callsSince. rewrite Htr, drop_app_length. exact Hc.
  - destruct (Z.to_nat (intervalSeconds t)) as [|k] eqn:Hk; [lia|].
    destruct (Hquiet k) as (Hh & Haw & evs & Htr & Hc); [lia|].
    cbn [secondTicks].
    set (wk := secondTicks self T k w) in *.
    assert (Hnotk : self ∉ awaiting wk) by (rewrite Haw; exact Hnot).
    destruct (settledTick_active self (T + 1000 * Z.of_nat (S k)) wk _ Hh Hactive Hnotk)
      as (Hh' & Haw' & Htr').
    cbn [elapsedSeconds set_elapsedSeconds] in Hh'.
    assert (HS : Z.of_nat (S k) = intervalSeconds t) by lia.
    assert (Hf : fires (T + 1000 * Z.of_nat (S k))
                   (set_elapsedSeconds (elapsedSeconds t + Z.of_nat (S k)) t) = true).
    { rewrite (fires_at T t Hactive Hidle Hn He Haligned Hlast) by lia.
      apply Z.eqb_eq. exact HS. }
    assert (Hcalls : actionCalls self
                       (tickCalls self (T + 1000 * Z.of_nat (S k))
                          (set_elapsedSeconds (elapsedSeconds t + Z.of_nat k) t)) = 1%nat).
    { rewrite actionCalls_tickCalls. cbn [elapsedSeconds set_elapsedSeconds].
      replace (elapsedSeconds t + Z.of_nat k + 1)
        with (elapsedSeconds t + Z.of_nat (S k)) by lia.
      change (set_elapsedSeconds (elapsedSeconds t + Z.of_nat (S k))
                (set_elapsedSeconds (elapsedSeconds t + Z.of_nat k) t))
        with (set_elapsedSeconds (elapsedSeconds t + Z.of_nat (S k)) t).
      rewrite Hf. reflexivity. }
    replace (elapsedSeconds t + Z.of_nat k + 1) with (elapsedSeconds t + Z.of_nat (S k))
      in Hh' by lia.
    change (set_elapsedSeconds (elapsedSeconds t + Z.of_nat (S k))
              (set_elapsedSeconds (elapsedSeconds t + Z.of_nat k) t))
      with (set_elapsedSeconds (elapsedSeconds t + Z.of_nat (S k)) t) in Hh'.
    rewrite Hf in Hh'.
    split; [|split].
    + unfold callsSince. rewrite Htr', Htr, <- app_assoc, drop_app_length.
      rewrite actionCalls_app, Hc, Hcalls. reflexivity.
    + rewrite Hh', HS. f_equal. unfold afterAction. cbn zeta.
      unfold isComplete. cbn [maxSeconds set_isActionRunning set_lastExecutionDate
                                set_elapsedSeconds]. rewrite Hforever.
      destruct t. cbn in *. subst. reflexivity.
    + congruence.
Qed.

(** The inactivity timer of [catchUpWorld], reset at date 60000 and then
    ticked for its five seconds. *)
Lemma secondTicks_fires_once_witness :
  actionCalls 0%nat
    (callsSince (update 0%nat (reactivate 60000) catchUpWorld)
       (secondTicks 0%nat 60000 5 (update 0%nat (reactivate 60000) catchUpWorld)))
  = 1%nat.
Proof.
  apply (secondTicks_fires_once 0%nat 60000
           (update 0%nat (reactivate 60000) catchUpWorld) (reactivate 60000 pollTimer));
    try reflexivity; try (cbn; lia).
  cbn. apply not_elem_of_nil.
Defined.


End Periodic.

(** * What no operation rewrites *)

Section Settings.

Import Timer.

Lemma sameSettings_refl (t : Timer) : sameSettings t t.
Proof. repeat split. Qed.

Lemma sameSettings_trans (t1 t2 t3 : Timer) :
  sameSettings t1 t2 -> sameSettings t2 t3 -> sameSettings t1 t3.
Proof.
  unfold sameSettings. intros (?&?&?&?&?&?&?) (?&?&?&?&?&?&?).
  repeat split; congruence.
Qed.

Lemma settingsKept_refl (w : World) : settingsKept w w.
Proof. intros a t Ha. exists t. split; [exact Ha|apply sameSettings_refl]. Qed.

Lemma settingsKept_trans (w1 w2 w3 : World) :
  settingsKept w1 w2 -> settingsKept w2 w3 -> settingsKept w1 w3.
Proof.
  intros H12 H23 a t Ha. destruct (H12 a t Ha) as (t2 & H2 & S2).
  destruct (H23 a t2 H2) as (t3 & H3 & S3).
  exists t3. split; [exact H3|exact (sameSettings_trans t t2 t3 S2 S3)].
Qed.

Lemma settingsKept_grow (w w' : World) (l : list Timer) :
  heap w' = heap w ++ l -> settingsKept w w'.
Proof.
  intros Hh a t Ha. exists t. split; [|apply sameSettings_refl].
  rewrite Hh. apply lookup_app_l_Some. exact Ha.
Qed.

Lemma settingsKept_same (w w' : World) : heap w' = heap w -> settingsKept w w'.
Proof. intros Hh. apply (settingsKept_grow w w' []). rewrite app_nil_r. exact Hh. Qed.

Lemma settingsKept_update (a : addr) (f : Timer -> Timer) (w : World) :
  (forall t, sameSettings t (f t)) -> settingsKept w (update a f w).
Proof.
  intros Hf b t Hb. unfold update. cbn [heap set_heap].
  destruct (decide (a = b)) as [<-|Hne].
  - exists (f t). rewrite list_lookup_alter_eq, Hb. split; [reflexivity|apply Hf].
  - exists t. rewrite list_lookup_alter_ne by exact Hne.
    split; [exact Hb|apply sameSettings_refl].
Qed.

Lemma settingsKept_forEach (f : Timer -> Timer) (l : list addr) (w : World) :
  (forall t, sameSettings t (f t)) -> settingsKept w (forEach f l w).
Proof.
  intros Hf. unfold forEach. revert w.
  induction l as [|a l IH]; intros w; cbn [fold_left]; [apply settingsKept_refl|].
  eapply settingsKept_trans; [apply (settingsKept_update a f w Hf)|apply IH].
Qed.

Lemma sameSettings_ticked (d today : Date) (t : Timer) : sameSettings t (ticked d today t).
Proof. unfold ticked. cbn zeta. destruct (fires d _); repeat split. Qed.

Lemma sameSettings_afterAction (t : Timer) : sameSettings t (afterAction t).
Proof. unfold afterAction. cbn zeta. destruct (isComplete _); repeat split. Qed.

Lemma settingsKept_executeAction (self : addr) (d : Date) (w : World) :
  settingsKept w (executeAction self d w).
Proof.
  intros a t Ha.
  destruct (executeAction_lookup self d w a) as [H|(t0 & Ht0 & _ & _ & H)].
  - exists t. rewrite H. split; [exact Ha|apply sameSettings_refl].
  - rewrite Ha in Ht0. injection Ht0 as <-.
    exists (ticked d (now w) t). split; [exact H|apply sameSettings_ticked].
Qed.

Lemma settingsKept_executeAll (d : Date) (l : list addr) (w : World) :
  settingsKept w (executeAll d l w).
Proof.
  unfold executeAll. revert w.
  induction l as [|x l IH]; intros w; cbn [fold_left]; [apply settingsKept_refl|].
  eapply settingsKept_trans; [apply settingsKept_executeAction|apply IH].
Qed.

Lemma settingsKept_checkTimers (w : World) : settingsKept w (checkTimers w).
Proof.
  unfold checkTimers. destruct (skipsPass w); [apply settingsKept_refl|]. cbn zeta.
  eapply settingsKept_trans; [|apply settingsKept_executeAll].
  apply settingsKept_same. reflexivity.
Qed.

Lemma settingsKept_addTimer (i : string) (f : Callback) (b : bool) (n : Z)
    (m : option Z) (ia : bool) (ta : option Callback) (w : World) :
  settingsKept w (addTimer i f b n m ia ta w).
Proof.
  unfold addTimer.
  destruct (_ || _); [apply settingsKept_same; reflexivity|].
  destruct (noActiveTimer i w); [|apply settingsKept_same; reflexivity].
  eapply settingsKept_grow. reflexivity.
Qed.

Lemma settingsKept_reset (depth : nat) (w w' : World) :
  resetInactivityTimers depth w = Some w' -> settingsKept w w'.
Proof.
  destruct depth as [|[|depth]]; [discriminate| |].
  - cbn. destruct (_ <? _); [|discriminate]. intros [= <-]. apply settingsKept_refl.
  - destruct (Z.ltb_spec (Z.abs (now w - inactivityLastClearDate w)) 10000) as [H|H].
    + rewrite resetInactivityTimers_recent by exact H. intros [= <-].
      apply settingsKept_refl.
    + rewrite resetInactivityTimers_due by exact H. intros [= <-].
      eapply settingsKept_trans; [|apply settingsKept_forEach; repeat split].
      apply settingsKept_same. reflexivity.
Qed.

Lemma settingsKept_step (o : Op) (w w' : World) : step o w = Some w' -> settingsKept w w'.
Proof.
  intros Hs. destruct o; cbn [step] in Hs;
    try (apply settingsKept_reset in Hs; exact Hs);
    try (destruct (existsb _ _); [|discriminate]);
    injection Hs as <-.
  - apply settingsKept_addTimer.
  - eapply settingsKept_grow. reflexivity.
  - apply settingsKept_checkTimers.
  - apply settingsKept_executeAction.
  - apply settingsKept_update. repeat split.
  - apply settingsKept_update. repeat split.
  - apply settingsKept_update. repeat split.
  - apply settingsKept_forEach. repeat split.
  - apply settingsKept_forEach. repeat split.
  - apply settingsKept_forEach. repeat split.
  - apply settingsKept_same. reflexivity.
  - eapply settingsKept_trans; [|apply settingsKept_update].
    + apply settingsKept_same. reflexivity.
    + apply sameSettings_afterAction.
  - apply settingsKept_same. reflexivity.
  - apply settingsKept_same. reflexivity.
Qed.

(** X7. Whatever operations run, no [Timer] is ever removed from the store, and
    none has its id, action, block and inactivity flags, interval, tick
    action or creation date changed: these are fixed at construction. *)
Theorem settings_are_fixed (ops : list Op) (w w' : World) :
  run ops w = Some w' ->
  forall a t, heap w !! a = Some t ->
    exists t', heap w' !! a = Some t' /\
      id t' = id t /\ action t' = action t /\
      isBlockTimer t' = isBlockTimer t /\ intervalSeconds t' = intervalSeconds t /\
      isInactivityTimer t' = isInactivityTimer t /\ tickAction t' = tickAction t /\
      createdDate t' = createdDate t.
Proof.
  revert w. induction ops as [|o ops IH]; intros w; cbn [run].
  - intros [= <-] a t Ha. exists t. repeat split. exact Ha.
  - destruct (step o w) as [w1|] eqn:Hs; [|discriminate].
    intros Hrun a t Ha.
    destruct (settingsKept_step o w w1 Hs a t Ha) as (t1 & H1 & S1).
    destruct (IH w1 Hrun a t1 H1) as (t' & H' & S').
    exists t'. split; [exact H'|].
    exact (sameSettings_trans t t1 t' S1 S').
Qed.

Lemma settings_are_fixed_witness :
  exists w' t', run [ExecuteAction 0%nat 6000; ActionFulfilled 0%nat; Cancel 0%nat]
                  catchUpWorld = Some w' /\
    heap w' !! 0%nat = Some t' /\ id t' = "poll" /\ intervalSeconds t' = 5.
Proof.
  destruct (run [ExecuteAction 0%nat 6000; ActionFulfilled 0%nat; Cancel 0%nat]
              catchUpWorld) as [w'|] eqn:Hrun; [|vm_compute in Hrun; discriminate].
  destruct (settings_are_fixed _ _ _ Hrun 0%nat pollTimer eq_refl)
    as (t' & Ht' & Hid & _ & _ & Hn & _).
  exists w', t'. repeat split; assumption.
Defined.

End Settings.

(** * Calls in flight *)

Section InFlight.

Import Timer.

Lemma elem_of_removeFirst (a x : addr) (l : list addr) :
  x ∈ removeFirst a l -> x ∈ l.
Proof.
  induction l as [|y l IH]; cbn [removeFirst]; [auto|].
  destruct (Nat.eqb y a).
  - intros H. apply elem_of_cons. right. exact H.
  - intros H. apply elem_of_cons in H as [->|H].
    + apply list_elem_of_here.
    + apply elem_of_cons. right. exact (IH H).
Qed.

Lemma NoDup_removeFirst (a : addr) (l : list addr) :
  NoDup l -> NoDup (removeFirst a l) /\ a ∉ removeFirst a l.
Proof.
  induction l as [|y l IH]; cbn [removeFirst]; intros Hnd.
  - split; [constructor|apply not_elem_of_nil].
  - apply NoDup_cons in Hnd as [Hy Hl].
    destruct (Nat.eqb_spec y a) as [->|Hne]; [split; assumption|].
    destruct (IH Hl) as [IH1 IH2]. split.
    + apply NoDup_cons. split; [|exact IH1].
      intros H. apply Hy. exact (elem_of_removeFirst a y l H).
    + apply not_elem_of_cons. split; [congruence|exact IH2].
Qed.

Lemma fires_idle (d : Date) (t : Timer) : fires d t = true -> isActionRunning t = false.
Proof.
  destruct (isActionRunning t) eqn:Hr; [|reflexivity].
  rewrite (fires_running d t Hr). discriminate.
Qed.

Lemma ticked_running (d today : Date) (t : Timer) :
  isActionRunning (ticked d today t)
  = isActionRunning t || fires d (set_elapsedSeconds (elapsedSeconds t + 1) t).
Proof.
  unfold ticked. cbn zeta.
  destruct (fires d _) eqn:Hf; cbn; [rewrite orb_true_r|rewrite orb_false_r]; reflexivity.
Qed.

(** ** At most one call per timer *)

Lemma oneInFlight_keep (w w' : World) :
  awaiting w' = awaiting w ->
  (forall a t, heap w !! a = Some t -> isActionRunning t = true ->
     exists t', heap w' !! a = Some t' /\ isActionRunning t' = true) ->
  oneInFlight w -> oneInFlight w'.
Proof.
  intros Haw Hh [Hnd Hrun]. split; rewrite Haw; [exact Hnd|].
  intros a Ha. destruct (Hrun a Ha) as (t & Ht & Hr). exact (Hh a t Ht Hr).
Qed.

Lemma oneInFlight_update (a : addr) (f : Timer -> Timer) (w : World) :
  (forall t, isActionRunning (f t) = isActionRunning t) ->
  oneInFlight w -> oneInFlight (update a f w).
Proof.
  intros Hf. apply oneInFlight_keep; [reflexivity|].
  intros b t Hb Hr. unfold update. cbn [heap set_heap].
  destruct (decide (a = b)) as [<-|Hne].
  - exists (f t). rewrite list_lookup_alter_eq, Hb, Hf. auto.
  - exists t. rewrite list_lookup_alter_ne by exact Hne. auto.
Qed.

Lemma oneInFlight_forEach (f : Timer -> Timer) (l : list addr) (w : World) :
  (forall t, isActionRunning (f t) = isActionRunning t) ->
  oneInFlight w -> oneInFlight (forEach f l w).
Proof.
  intros Hf. unfold forEach. revert w.
  induction l as [|a l IH]; intros w Hw; cbn [fold_left]; [exact Hw|].
  apply IH. apply oneInFlight_update; assumption.
Qed.

Lemma oneInFlight_grow (w w' : World) (l : list Timer) :
  awaiting w' = awaiting w -> heap w' = heap w ++ l ->
  oneInFlight w -> oneInFlight w'.
Proof.
  intros Haw Hh. apply oneInFlight_keep; [exact Haw|].
  intros a t Ha Hr. exists t. rewrite Hh. split; [|exact Hr].
  apply lookup_app_l_Some. exact Ha.
Qed.

Lemma oneInFlight_same (w w' : World) :
  awaiting w' = awaiting w -> heap w' = heap w -> oneInFlight w -> oneInFlight w'.
Proof.
  intros Haw Hh. apply (oneInFlight_grow w w' []); [exact Haw|].
  rewrite app_nil_r. exact Hh.
Qed.

Lemma oneInFlight_executeAction (self : addr) (d : Date) (w : World) :
  oneInFlight w -> oneInFlight (executeAction self d w).
Proof.
  intros Hw.
  destruct (heap w !! self) as [t|] eqn:Hl;
    [|rewrite executeAction_absent by exact Hl; exact Hw].
  destruct (isActive t) eqn:Ha;
    [|rewrite (executeAction_inactive self d w t Hl Ha); exact Hw].
  destruct (executeAction_active self d w t Hl Ha) as (Hh & _ & _ & _ & _ & Haw).
  assert (Hkeep : forall a t0, heap w !! a = Some t0 -> isActionRunning t0 = true ->
            exists t', heap (executeAction self d w) !! a = Some t'
                       /\ isActionRunning t' = true).
  { intros a t0 Ht0 Hr. rewrite Hh. destruct (decide (self = a)) as [<-|Hne].
    - rewrite list_lookup_alter_eq, Hl. cbn. eexists. split; [reflexivity|].
      rewrite ticked_running. rewrite Hl in Ht0. injection Ht0 as <-.
      rewrite Hr. reflexivity.
    - exists t0. rewrite list_lookup_alter_ne by exact Hne. auto. }
  destruct (fires d (set_elapsedSeconds (elapsedSeconds t + 1) t)) eqn:Hf.
  - destruct Hw as [Hnd Hrun].
    assert (Hidle : isActionRunning t = false) by exact (fires_idle d _ Hf).
    assert (Hnot : self ∉ awaiting w).
    { intros Hin. destruct (Hrun self Hin) as (t0 & Ht0 & Hr). congruence. }
    split; rewrite Haw.
    + apply NoDup_app. split; [exact Hnd|]. split; [|apply NoDup_singleton].
      intros x Hx Hx'. apply list_elem_of_singleton in Hx'. subst. contradiction.
    + intros a Hin. apply elem_of_app in Hin as [Hin|Hin].
      * destruct (Hrun a Hin) as (t0 & Ht0 & Hr). exact (Hkeep a t0 Ht0 Hr).
      * apply list_elem_of_singleton in Hin as ->.
        rewrite Hh, list_lookup_alter_eq, Hl. cbn. eexists. split; [reflexivity|].
        rewrite ticked_running, Hf. apply orb_true_r.
  - rewrite app_nil_r in Haw. exact (oneInFlight_keep w _ Haw Hkeep Hw).
Qed.

Lemma oneInFlight_executeAll (d : Date) (l : list addr) (w : World) :
  oneInFlight w -> oneInFlight (executeAll d l w).
Proof.
  unfold executeAll. revert w.
  induction l as [|x l IH]; intros w Hw; cbn [fold_left]; [exact Hw|].
  apply IH. apply oneInFlight_executeAction. exact Hw.
Qed.

Lemma oneInFlight_checkTimers (w : World) : oneInFlight w -> oneInFlight (checkTimers w).
Proof.
  intros Hw. unfold checkTimers. destruct (skipsPass w); [exact Hw|]. cbn zeta.
  apply oneInFlight_executeAll.
  eapply oneInFlight_same; [| |exact Hw]; reflexivity.
Qed.

Lemma oneInFlight_addTimer (i : string) (f : Callback) (b : bool) (n : Z)
    (m : option Z) (ia : bool) (ta : option Callback) (w : World) :
  oneInFlight w -> oneInFlight (addTimer i f b n m ia ta w).
Proof.
  intros Hw. unfold addTimer.
  destruct (_ || _); [eapply oneInFlight_same; [| |exact Hw]; reflexivity|].
  destruct (noActiveTimer i w); [|eapply oneInFlight_same; [| |exact Hw]; reflexivity].
  eapply oneInFlight_grow; [| |exact Hw]; reflexivity.
Qed.

Lemma oneInFlight_reset (depth : nat) (w w' : World) :
  resetInactivityTimers depth w = Some w' -> oneInFlight w -> oneInFlight w'.
Proof.
  destruct depth as [|[|depth]]; [discriminate| |].
  - cbn. destruct (_ <? _); [|discriminate]. intros [= <-]. auto.
  - destruct (Z.ltb_spec (Z.abs (now w - inactivityLastClearDate w)) 10000) as [H|H].
    + rewrite resetInactivityTimers_recent by exact H. intros [= <-]. auto.
    + rewrite resetInactivityTimers_due by exact H. intros [= <-] Hw.
      apply oneInFlight_forEach; [reflexivity|].
      eapply oneInFlight_same; [| |exact Hw]; reflexivity.
Qed.

Lemma oneInFlight_settle (self : addr) (f : Timer -> Timer) (w : World) :
  oneInFlight w ->
  oneInFlight (update self f (set_awaiting (removeFirst self (awaiting w)) w)).
Proof.
  intros [Hnd Hrun]. destruct (NoDup_removeFirst self _ Hnd) as [Hnd' Hnot].
  split; cbn [update awaiting set_heap set_awaiting heap]; [exact Hnd'|].
  intros a Ha.
  assert (Hne : self <> a) by (intros ->; contradiction).
  rewrite list_lookup_alter_ne by exact Hne.
  apply Hrun. exact (elem_of_removeFirst self a _ Ha).
Qed.

Lemma oneInFlight_step (o : Op) (w w' : World) :
  step o w = Some w' -> oneInFlight w -> oneInFlight w'.
Proof.
  intros Hs Hw. destruct o; cbn [step] in Hs;
    try (exact (oneInFlight_reset _ _ _ Hs Hw));
    try (destruct (existsb _ _); [|discriminate]);
    injection Hs as <-.
  - apply oneInFlight_addTimer. exact Hw.
  - eapply oneInFlight_grow; [| |exact Hw]; reflexivity.
  - apply oneInFlight_checkTimers. exact Hw.
  - apply oneInFlight_executeAction. exact Hw.
  - apply oneInFlight_update; [reflexivity|exact Hw].
  - apply oneInFlight_update; [reflexivity|exact Hw].
  - apply oneInFlight_update; [reflexivity|exact Hw].
  - apply oneInFlight_forEach; [reflexivity|exact Hw].
  - apply oneInFlight_forEach; [reflexivity|exact Hw].
  - apply oneInFlight_forEach; [reflexivity|exact Hw].
  - eapply oneInFlight_same; [| |exact Hw]; reflexivity.
  - apply oneInFlight_settle. exact Hw.
  - pose proof (oneInFlight_settle self (fun t => t) w Hw) as H.
    unfold update in H. rewrite list_alter_id in H by reflexivity. exact H.
  - eapply oneInFlight_same; [| |exact Hw]; reflexivity.
Qed.

Lemma oneInFlight_run (ops : list Op) (w w' : World) :
  run ops w = Some w' -> oneInFlight w -> oneInFlight w'.
Proof.
  revert w. induction ops as [|o ops IH]; intros w; cbn [run].
  - intros [= <-]. auto.
  - destruct (step o w) as [w1|] eqn:Hs; [|discriminate].
    intros Hrun Hw. exact (IH w1 Hrun (oneInFlight_step o w w1 Hs Hw)).
Qed.

(** X8. In every run from start-up, no timer has two calls of its action in
    flight, and a timer with a call in flight has [isActionRunning] set. *)
Theorem one_call_in_flight (today lastClear : Date) (rxd : bool)
    (ops : list Op) (w : World) :
  run ops (boot today lastClear rxd) = Some w ->
  NoDup (awaiting w) /\
  forall a, a ∈ awaiting w ->
    exists t, heap w !! a = Some t /\ isActionRunning t = true.
Proof.
  intros Hrun. apply (oneInFlight_run ops _ w Hrun).
  split; [constructor|]. intros a Ha. cbn in Ha. inversion Ha.
Qed.

(** [sampleRun] up to the moment the action of the inactivity timer has been
    called and not yet settled. *)
Lemma one_call_in_flight_witness :
  exists w, run (take 14 sampleRun) (boot 0 0 false) = Some w /\
    awaiting w = [1%nat] /\ NoDup (awaiting w).
Proof.
  destruct (run (take 14 sampleRun) (boot 0 0 false)) as [w|] eqn:Hrun;
    [|vm_compute in Hrun; discriminate].
  exists w. split; [reflexivity|].
  split; [|exact (proj1 (one_call_in_flight 0 0 false _ w Hrun))].
  vm_compute in Hrun. injection Hrun as <-. reflexivity.
Defined.

(** ** A rejected action *)

Lemma actionCalls_tickCalls_other (self a : addr) (d : Date) (t : Timer) :
  a <> self -> actionCalls self (tickCalls a d t) = 0%nat.
Proof.
  intros Hne. unfold tickCalls. rewrite actionCalls_app.
  destruct (tickAction t); destruct (fires d _); cbn;
    try (destruct (Nat.eqb_spec a self); [contradiction|]); reflexivity.
Qed.

Lemma stuck_keep (self : addr) (w w' : World) :
  awaiting w' = awaiting w ->
  (forall t, heap w !! self = Some t -> isActionRunning t = true ->
     exists t', heap w' !! self = Some t' /\ isActionRunning t' = true) ->
  trace w' = trace w ->
  stuck self w -> staysStuck self w w'.
Proof.
  intros Haw Hh Htr (Hnot & t & Ht & Hr). split; [|rewrite Htr; reflexivity].
  split; [rewrite Haw; exact Hnot|]. exact (Hh t Ht Hr).
Qed.

Lemma stuck_update (self a : addr) (f : Timer -> Timer) (w : World) :
  (forall t, isActionRunning (f t) = isActionRunning t) ->
  stuck self w -> staysStuck self w (update a f w).
Proof.
  intros Hf. apply stuck_keep; [reflexivity| |reflexivity].
  intros t Ht Hr. unfold update. cbn [heap set_heap].
  destruct (decide (a = self)) as [->|Hne].
  - exists (f t). rewrite list_lookup_alter_eq, Ht, Hf. auto.
  - exists t. rewrite list_lookup_alter_ne by exact Hne. auto.
Qed.

Lemma staysStuck_trans (self : addr) (w1 w2 w3 : World) :
  staysStuck self w1 w2 -> staysStuck self w2 w3 -> staysStuck self w1 w3.
Proof. intros [_ H12] [S3 H23]. split; [exact S3|congruence]. Qed.

Lemma stuck_forEach (self : addr) (f : Timer -> Timer) (l : list addr) (w : World) :
  (forall t, isActionRunning (f t) = isActionRunning t) ->
  stuck self w -> staysStuck self w (forEach f l w).
Proof.
  intros Hf. unfold forEach. revert w.
  induction l as [|a l IH]; intros w Hw; cbn [fold_left]; [split; [exact Hw|reflexivity]|].
  pose proof (stuck_update self a f w Hf Hw) as H1.
  exact (staysStuck_trans self _ _ _ H1 (IH _ (proj1 H1))).
Qed.

Lemma stuck_grow (self : addr) (w w' : World) (l : list Timer) (evs : list Event) :
  awaiting w' = awaiting w -> heap w' = heap w ++ l ->
  trace w' = trace w ++ evs -> actionCalls self evs = 0%nat ->
  stuck self w -> staysStuck self w w'.
Proof.
  intros Haw Hh Htr Hc (Hnot & t & Ht & Hr). split.
  - split; [rewrite Haw; exact Hnot|]. exists t. rewrite Hh. split; [|exact Hr].
    apply lookup_app_l_Some. exact Ht.
  - rewrite Htr, actionCalls_app, Hc. lia.
Qed.

Lemma stuck_executeAction (self a : addr) (d : Date) (w : World) :
  stuck self w -> staysStuck self w (executeAction a d w).
Proof.
  intros Hw.
  destruct (heap w !! a) as [t|] eqn:Hl;
    [|rewrite executeAction_absent by exact Hl; split; [exact Hw|reflexivity]].
  destruct (isActive t) eqn:Ha;
    [|rewrite (executeAction_inactive a d w t Hl Ha); split; [exact Hw|reflexivity]].
  destruct (executeAction_active a d w t Hl Ha) as (Hh & Htr & _ & _ & _ & Haw).
  destruct Hw as (Hnot & t0 & Ht0 & Hr).
  destruct (decide (a = self)) as [->|Hne].
  - rewrite Hl in Ht0. injection Ht0 as <-.
    assert (Hf : fires d (set_elapsedSeconds (elapsedSeconds t + 1) t) = false)
      by (apply fires_running; exact Hr).
    rewrite Hf, app_nil_r in Haw. split.
    + split; [rewrite Haw; exact Hnot|].
      rewrite Hh, list_lookup_alter_eq, Hl. cbn. eexists. split; [reflexivity|].
      rewrite ticked_running, Hr. reflexivity.
    + rewrite Htr, actionCalls_app, actionCalls_tickCalls, Hf. lia.
  - split.
    + split.
      * rewrite Haw. intros Hin. apply elem_of_app in Hin as [Hin|Hin]; [contradiction|].
        destruct (fires d _); [|inversion Hin].
        apply list_elem_of_singleton in Hin. congruence.
      * exists t0. rewrite Hh, list_lookup_alter_ne by exact Hne. auto.
    + rewrite Htr, actionCalls_app, (actionCalls_tickCalls_other self a d t Hne). lia.
Qed.

Lemma stuck_executeAll (self : addr) (d : Date) (l : list addr) (w : World) :
  stuck self w -> staysStuck self w (executeAll d l w).
Proof.
  unfold executeAll. revert w.
  induction l as [|a l IH]; intros w Hw; cbn [fold_left]; [split; [exact Hw|reflexivity]|].
  pose proof (stuck_executeAction self a d w Hw) as H1.
  exact (staysStuck_trans self _ _ _ H1 (IH _ (proj1 H1))).
Qed.

Lemma stuck_same (self : addr) (w w' : World) (evs : list Event) :
  awaiting w' = awaiting w -> heap w' = heap w ->
  trace w' = trace w ++ evs -> actionCalls self evs = 0%nat ->
  stuck self w -> staysStuck self w w'.
Proof.
  intros Haw Hh. apply (stuck_grow self w w' []); [exact Haw|].
  rewrite app_nil_r. exact Hh.
Qed.

Lemma stuck_quiet (self : addr) (w w' : World) :
  awaiting w' = awaiting w -> heap w' = heap w -> trace w' = trace w ->
  stuck self w -> staysStuck self w w'.
Proof.
  intros Haw Hh Htr. apply (stuck_same self w w' []); try assumption; [|reflexivity].
  rewrite app_nil_r. exact Htr.
Qed.

Lemma stuck_checkTimers (self : addr) (w : World) :
  stuck self w -> staysStuck self w (checkTimers w).
Proof.
  intros Hw. unfold checkTimers.
  destruct (skipsPass w); [split; [exact Hw|reflexivity]|]. cbn zeta.
  eapply staysStuck_trans; [|apply stuck_executeAll].
  - apply stuck_quiet; [reflexivity..|exact Hw].
  - apply (stuck_quiet self w); [reflexivity..|exact Hw].
Qed.

Lemma stuck_addTimer (self : addr) (i : string) (f : Callback) (b : bool) (n : Z)
    (m : option Z) (ia : bool) (ta : option Callback) (w : World) :
  stuck self w -> staysStuck self w (addTimer i f b n m ia ta w).
Proof.
  intros Hw. unfold addTimer.
  destruct (_ || _);
    [eapply stuck_same; [| | | |exact Hw]; reflexivity|].
  destruct (noActiveTimer i w);
    [|eapply stuck_same; [| | | |exact Hw]; reflexivity].
  apply (stuck_grow self w _ [constructor i f b n m ia ta (now w)] []);
    [reflexivity|reflexivity| |reflexivity|exact Hw].
  cbn. rewrite app_nil_r. reflexivity.
Qed.

Lemma stuck_reset (self : addr) (depth : nat) (w w' : World) :
  resetInactivityTimers depth w = Some w' -> stuck self w -> staysStuck self w w'.
Proof.
  destruct depth as [|[|depth]]; [discriminate| |].
  - cbn. destruct (_ <? _); [|discriminate]. intros [= <-] Hw.
    split; [exact Hw|reflexivity].
  - destruct (Z.ltb_spec (Z.abs (now w - inactivityLastClearDate w)) 10000) as [H|H].
    + rewrite resetInactivityTimers_recent by exact H. intros [= <-] Hw.
      split; [exact Hw|reflexivity].
    + rewrite resetInactivityTimers_due by exact H. intros [= <-] Hw.
      assert (H1 : staysStuck self w
                     (emit (ClearAlerts [warningAlertName w])
                        (set_inactivityLastClearDate (now w) w)))
        by (eapply stuck_same; [| | | |exact Hw]; reflexivity).
      eapply staysStuck_trans; [exact H1|].
      apply stuck_forEach; [reflexivity|exact (proj1 H1)].
Qed.


Lemma stuck_settle (self a : addr) (f : Timer -> Timer) (w : World) :
  a ∈ awaiting w -> stuck self w ->
  staysStuck self w (update a f (set_awaiting (removeFirst a (awaiting w)) w)).
Proof.
  intros Ha (Hnot & t & Ht & Hr).
  assert (Hne : a <> self) by (intros ->; contradiction).
  split; [|reflexivity]. split; cbn [update awaiting set_heap set_awaiting heap].
  - intros Hin. apply Hnot. exact (elem_of_removeFirst a self _ Hin).
  - exists t. rewrite list_lookup_alter_ne by exact Hne. auto.
Qed.

Lemma stuck_step (self : addr) (o : Op) (w w' : World) :
  step o w = Some w' -> stuck self w -> staysStuck self w w'.
Proof.
  intros Hs Hw. destruct o; cbn [step] in Hs;
    try (exact (stuck_reset self _ _ _ Hs Hw));
    try (destruct (existsb _ _) eqn:Hin; [apply existsb_eqb_elem in Hin|discriminate]);
    injection Hs as <-.
  - apply stuck_addTimer. exact Hw.
  - eapply (stuck_grow self w _ _ []); [| | | |exact Hw]; try reflexivity.
    cbn. rewrite app_nil_r. reflexivity.
  - apply stuck_checkTimers. exact Hw.
  - apply stuck_executeAction. exact Hw.
  - apply stuck_update; [reflexivity|exact Hw].
  - apply stuck_update; [reflexivity|exact Hw].
  - apply stuck_update; [reflexivity|exact Hw].
  - apply stuck_forEach; [reflexivity|exact Hw].
  - apply stuck_forEach; [reflexivity|exact Hw].
  - apply stuck_forEach; [reflexivity|exact Hw].
  - apply stuck_quiet; [reflexivity..|exact Hw].
  - apply stuck_settle; assumption.
  - pose proof (stuck_settle self self0 (fun t => t) w Hin Hw) as H.
    unfold update in H. rewrite list_alter_id in H by reflexivity. exact H.
  - apply stuck_quiet; [reflexivity..|exact Hw].
Qed.

Lemma stuck_run (self : addr) (ops : list Op) (w w' : World) :
  run ops w = Some w' -> stuck self w -> staysStuck self w w'.
Proof.
  revert w. induction ops as [|o ops IH]; intros w; cbn [run].
  - intros [= <-] Hw. split; [exact Hw|reflexivity].
  - destruct (step o w) as [w1|] eqn:Hs; [|discriminate].
    intros Hrun Hw. pose proof (stuck_step self o w w1 Hs Hw) as H1.
    exact (staysStuck_trans self _ _ _ H1 (IH w1 Hrun (proj1 H1))).
Qed.

(** X9. When the promise of a timer's action is rejected, the timer keeps
    [isActionRunning] set for good: whatever operations follow, resets of
    the inactivity timers included, its action is never called again. *)
Theorem rejected_action_silences_timer (self : addr) (ops : list Op) (w w' : World) :
  oneInFlight w -> self ∈ awaiting w ->
  run (ActionRejected self :: ops) w = Some w' ->
  (exists t', heap w' !! self = Some t' /\ isActionRunning t' = true) /\
  (self ∉ awaiting w') /\
  actionCalls self (trace w') = actionCalls self (trace w).
Proof.
  intros Hone Hin Hrun. cbn [run step] in Hrun.
  replace (existsb (Nat.eqb self) (awaiting w)) with true in Hrun
    by (symmetry; apply existsb_eqb_elem; exact Hin).
  destruct Hone as [Hnd Hrunning].
  destruct (NoDup_removeFirst self _ Hnd) as [_ Hnot].
  assert (Hstuck : stuck self (set_awaiting (removeFirst self (awaiting w)) w)).
  { split; [exact Hnot|]. exact (Hrunning self Hin). }
  destruct (stuck_run self ops _ w' Hrun Hstuck) as [[Hnot' Hr'] Hc].
  split; [exact Hr'|]. split; [exact Hnot'|exact Hc].
Qed.

(** In [catchUpWorld] the action of the timer is called and rejected; a
    reset of the inactivity timers and passes over the next seconds do not
    call it again. *)
Lemma rejected_action_silences_timer_witness :
  exists w',
    run (ActionRejected 0%nat :: afterRejection) (executeAction 0%nat 6000 catchUpWorld)
    = Some w' /\
    actionCalls 0%nat (trace w') = 1%nat.
Proof.
  destruct (run (ActionRejected 0%nat :: afterRejection)
              (executeAction 0%nat 6000 catchUpWorld)) as [w'|] eqn:Hrun;
    [|vm_compute in Hrun; discriminate].
  exists w'. split; [reflexivity|].
  destruct (rejected_action_silences_timer 0%nat afterRejection
              (executeAction 0%nat 6000 catchUpWorld) w') as (_ & _ & Hc).
  - split; [vm_compute; apply NoDup_singleton|].
    intros a Ha. vm_compute in Ha. apply list_elem_of_singleton in Ha as ->.
    vm_compute. eexists. split; reflexivity.
  - vm_compute. apply list_elem_of_here.
  - exact Hrun.
  - rewrite Hc. reflexivity.
Defined.

End InFlight.

(** * Lookup and cancellation *)

Section Collection.

Import Timer.

(** The store after [arr.filter(p).forEach(x => x.m())], for a method [m]
    that does nothing when run twice. *)
Lemma forEach_filter_lookup (p : Timer -> bool) (f : Timer -> Timer) (l : list addr)
    (w : World) (a : addr) (t : Timer) :
  (forall x, f (f x) = f x) ->
  heap w !! a = Some t ->
  heap (forEach f (List.filter (holds p (heap w)) l) w) !! a
  = Some (if existsb (Nat.eqb a) l && p t then f t else t).
Proof.
  intros Hidem Ha.
  rewrite (forEach_lookup f _ w a Hidem), Ha, (existsb_filter_holds p _ l a t Ha).
  cbn. destruct (_ && _); reflexivity.
Qed.

Lemma forEach_filter_absent (p : Timer -> bool) (f : Timer -> Timer) (l : list addr)
    (w : World) (a : addr) :
  (forall x, f (f x) = f x) ->
  heap w !! a = None ->
  heap (forEach f (List.filter (holds p (heap w)) l) w) !! a = None.
Proof. intros Hidem Ha. rewrite (forEach_lookup f _ w a Hidem), Ha. reflexivity. Qed.

Lemma filter_head {A : Type} (p : A -> bool) (l : list A) :
  match List.filter p l with
  | [] => forall x, x ∈ l -> p x = false
  | a :: _ => exists l1 l2, l = l1 ++ a :: l2 /\ p a = true /\
                            forall x, x ∈ l1 -> p x = false
  end.
Proof.
  induction l as [|y l IH]; cbn [List.filter].
  - intros x Hx. inversion Hx.
  - destruct (p y) eqn:Hy.
    + exists [], l. split; [reflexivity|]. split; [exact Hy|].
      intros x Hx. inversion Hx.
    + destruct (List.filter p l) as [|a k].
      * intros x Hx. apply elem_of_cons in Hx as [->|Hx]; [exact Hy|exact (IH x Hx)].
      * destruct IH as (l1 & l2 & -> & Ha & Hbefore).
        exists (y :: l1), l2. split; [reflexivity|]. split; [exact Ha|].
        intros x Hx. apply elem_of_cons in Hx as [->|Hx]; [exact Hy|exact (Hbefore x Hx)].
Qed.

Lemma getTimer_head (i : string) (w : World) :
  getTimer i w
  = head (List.filter (holds (fun x => String.eqb (id x) i) (heap w))
            (TimerManager.timers (timerManager w))).
Proof.
  unfold getTimer. cbn zeta. destruct (List.filter _ _); reflexivity.
Qed.

Lemma holds_id_false (i : string) (h : list Timer) (a : addr) :
  holds (fun x => String.eqb (id x) i) h a = false <->
  forall t, h !! a = Some t -> id t <> i.
Proof.
  unfold holds. destruct (h !! a) as [t|].
  - rewrite String.eqb_neq. split; [intros H t' [= <-]; exact H|auto].
  - split; [discriminate|reflexivity].
Qed.

Lemma getTimer_cases (i : string) (w : World) :
  match getTimer i w with
  | Some a =>
      exists l1 l2 t,
        TimerManager.timers (timerManager w) = l1 ++ a :: l2 /\
        heap w !! a = Some t /\ id t = i /\
        forall b t', b ∈ l1 -> heap w !! b = Some t' -> id t' <> i
  | None =>
      forall a t, a ∈ TimerManager.timers (timerManager w) ->
        heap w !! a = Some t -> id t <> i
  end.
Proof.
  rewrite getTimer_head.
  pose proof (filter_head (holds (fun x => String.eqb (id x) i) (heap w))
                (TimerManager.timers (timerManager w))) as Hf.
  destruct (List.filter _ _) as [|a k]; cbn [head].
  - intros a t Ha. apply holds_id_false. exact (Hf a Ha).
  - destruct Hf as (l1 & l2 & Hl & Ha & Hbefore).
    apply holds_true in Ha as (t & Ht & Hid). apply String.eqb_eq in Hid.
    exists l1, l2, t. repeat split; try assumption.
    intros b t' Hb. apply holds_id_false. exact (Hbefore b Hb).
Qed.

Lemma hasTimer_exists (i : string) (w : World) :
  hasTimer i w = true <->
  exists a t, a ∈ TimerManager.timers (timerManager w) /\
    heap w !! a = Some t /\ id t = i.
Proof.
  pose proof (getTimer_cases i w) as H. unfold hasTimer.
  destruct (getTimer i w) as [a|].
  - destruct H as (l1 & l2 & t & Hl & Ht & Hid & _). split; [intros _|reflexivity].
    exists a, t. rewrite Hl. split; [|auto].
    apply elem_of_app. right. apply list_elem_of_here.
  - split; [discriminate|]. intros (a & t & Ha & Ht & Hid).
    destruct (H a t Ha Ht Hid).
Qed.

(** X10. [getTimer(timerId)] returns the first timer of the collection, in its
    order, whose id is [timerId], and [null] exactly when the collection has
    none; [hasTimer] is true exactly when it has one. *)
Theorem getTimer_spec (i : string) (w : World) :
  match getTimer i w with
  | Some a =>
      exists l1 l2 t,
        TimerManager.timers (timerManager w) = l1 ++ a :: l2 /\
        heap w !! a = Some t /\ id t = i /\
        forall b t', b ∈ l1 -> heap w !! b = Some t' -> id t' <> i
  | None =>
      forall a t, a ∈ TimerManager.timers (timerManager w) ->
        heap w !! a = Some t -> id t <> i
  end /\
  (hasTimer i w = true <->
   exists a t, a ∈ TimerManager.timers (timerManager w) /\
     heap w !! a = Some t /\ id t = i).
Proof. split; [apply getTimer_cases|apply hasTimer_exists]. Qed.

(** ** Cancelling *)

Lemma elem_existsb (a : addr) (l : list addr) :
  existsb (Nat.eqb a) l = true <-> a ∈ l.
Proof. apply existsb_eqb_elem. Qed.

(** The store after a cancellation by predicate [p]. *)
Lemma cancel_by_lookup (p : Timer -> bool) (w : World) (a : addr) (t : Timer) :
  heap w !! a = Some t ->
  (a ∈ TimerManager.timers (timerManager w) -> p t = true ->
   heap (forEach cancel (List.filter (holds p (heap w))
                           (TimerManager.timers (timerManager w))) w) !! a
   = Some (cancel t)) /\
  (a ∉ TimerManager.timers (timerManager w) \/ p t = false ->
   heap (forEach cancel (List.filter (holds p (heap w))
                           (TimerManager.timers (timerManager w))) w) !! a
   = Some t).
Proof.
  intros Ha. rewrite (forEach_filter_lookup p cancel _ w a t cancel_cancel Ha). split.
  - intros Hin Hp. apply elem_existsb in Hin. rewrite Hin, Hp. reflexivity.
  - intros [Hin|Hp].
    + replace (existsb (Nat.eqb a) (TimerManager.timers (timerManager w))) with false
        by (symmetry; apply not_true_is_false; rewrite elem_existsb; exact Hin).
      reflexivity.
    + rewrite Hp, andb_false_r. reflexivity.
Qed.

(** X11. [cancelTimer(timerId)] cancels every timer of the collection whose id is
    [timerId], active or not, and only those: every other object, the
    collection itself and the record of calls are as before. *)
Theorem cancelTimer_spec (i : string) (w : World) :
  timerManager (cancelTimer i w) = timerManager w /\
  trace (cancelTimer i w) = trace w /\
  length (heap (cancelTimer i w)) = length (heap w) /\
  forall a t, heap w !! a = Some t ->
    (a ∈ TimerManager.timers (timerManager w) -> id t = i ->
     heap (cancelTimer i w) !! a = Some (cancel t)) /\
    (a ∉ TimerManager.timers (timerManager w) \/ id t <> i ->
     heap (cancelTimer i w) !! a = Some t).
Proof.
  unfold cancelTimer.
  match goal with |- context [forEach ?f ?l ?w0] =>
    destruct (forEach_frame f l w0) as (-> & _ & _ & _ & _ & ->);
    rewrite (forEach_length f l w0)
  end.
  split; [reflexivity|]. split; [reflexivity|]. split; [reflexivity|].
  intros a t Ha.
  destruct (cancel_by_lookup (fun x => String.eqb (id x) i) w a t Ha) as [Hyes Hno].
  split.
  - intros Hin Hid. apply (Hyes Hin). apply String.eqb_eq. exact Hid.
  - intros Hor. apply Hno.
    destruct Hor as [Hin|Hid]; [left; exact Hin|right; apply String.eqb_neq; exact Hid].
Qed.

(** X12. [cancelBlockTimers()] cancels the block timers of the collection and
    leaves every other timer, the collection and the record of calls as
    they were. *)
Theorem cancelBlockTimers_spec (w : World) :
  timerManager (cancelBlockTimers w) = timerManager w /\
  trace (cancelBlockTimers w) = trace w /\
  forall a t, heap w !! a = Some t ->
    (a ∈ TimerManager.timers (timerManager w) -> isBlockTimer t = true ->
     heap (cancelBlockTimers w) !! a = Some (cancel t)) /\
    (a ∉ TimerManager.timers (timerManager w) \/ isBlockTimer t = false ->
     heap (cancelBlockTimers w) !! a = Some t).
Proof.
  unfold cancelBlockTimers.
  match goal with |- context [forEach ?f ?l ?w0] =>
    destruct (forEach_frame f l w0) as (-> & _ & _ & _ & _ & ->)
  end.
  split; [reflexivity|]. split; [reflexivity|].
  intros a t Ha. exact (cancel_by_lookup isBlockTimer w a t Ha).
Qed.


Lemma world_eq (w w' : World) :
  heap w = heap w' -> timerManager w = timerManager w' ->
  inactivityLastClearDate w = inactivityLastClearDate w' ->
  rxdLibraryIsAvailable w = rxdLibraryIsAvailable w' ->
  now w = now w' -> awaiting w = awaiting w' -> trace w = trace w' ->
  w = w'.
Proof. destruct w, w'. cbn. intros. subst. reflexivity. Qed.

Lemma filter_none {A : Type} (p : A -> bool) (l : list A) :
  (forall x, p x = false) -> List.filter p l = [].
Proof.
  intros Hp. induction l as [|x l IH]; cbn [List.filter]; [reflexivity|].
  rewrite Hp. exact IH.
Qed.

Lemma holds_ext (p q : Timer -> bool) (h : list Timer) (a : addr) :
  (forall t, p t = q t) -> holds p h a = holds q h a.
Proof. intros Hpq. unfold holds. destruct (h !! a); [apply Hpq|reflexivity]. Qed.

(** X13. [cancelTimers] of no id does nothing, [cancelTimers] of one id is
    [cancelTimer], and cancelling two lists of ids at once is cancelling the
    first list and then the second. *)
Theorem cancelTimers_compose (i : string) (l1 l2 : list string) (w : World) :
  cancelTimers [] w = w /\
  cancelTimers [i] w = cancelTimer i w /\
  cancelTimers (l1 ++ l2) w = cancelTimers l2 (cancelTimers l1 w).
Proof.
  split; [|split].
  - unfold cancelTimers. rewrite filter_none; [reflexivity|].
    intros a. unfold holds. destruct (heap w !! a); reflexivity.
  - unfold cancelTimers, cancelTimer. f_equal. apply List.filter_ext.
    intros a. apply holds_ext. intros t. cbn. apply orb_false_r.
  - unfold cancelTimers at 1 2.
    set (w1 := cancelTimers l1 w).
    assert (Hf1 : timerManager w1 = timerManager w /\ inactivityLastClearDate w1
                  = inactivityLastClearDate w /\ rxdLibraryIsAvailable w1
                  = rxdLibraryIsAvailable w /\ now w1 = now w /\ awaiting w1 = awaiting w
                  /\ trace w1 = trace w) by apply forEach_frame.
    destruct Hf1 as (Hm1 & Hc1 & Hx1 & Hn1 & Ha1 & Ht1).
    match goal with |- forEach ?f ?l ?w0 = forEach ?g ?k ?v0 =>
      destruct (forEach_frame f l w0) as (Em & Ec & Ex & En & Ea & Et);
      destruct (forEach_frame g k v0) as (Fm & Fc & Fx & Fn & Fa & Ft)
    end.
    apply world_eq; try congruence.
    apply list_eq. intros a. rewrite Hm1.
    destruct (heap w !! a) as [t|] eqn:Hw.
    + assert (H1 : heap w1 !! a
                   = Some (if existsb (Nat.eqb a) (TimerManager.timers (timerManager w))
                              && existsb (String.eqb (id t)) l1
                           then cancel t else t)).
      { unfold w1, cancelTimers.
        exact (forEach_filter_lookup _ cancel _ w a t cancel_cancel Hw). }
      rewrite (forEach_filter_lookup _ cancel _ w a t cancel_cancel Hw).
      rewrite (forEach_filter_lookup _ cancel _ w1 a _ cancel_cancel H1).
      rewrite existsb_app.
      destruct (existsb (Nat.eqb a) (TimerManager.timers (timerManager w)));
        destruct (existsb (String.eqb (id t)) l1);
        cbn [andb orb id cancel set_maxSeconds set_isActive];
        destruct (existsb (String.eqb (id t)) l2); reflexivity.
    + assert (H1 : heap w1 !! a = None).
      { unfold w1, cancelTimers.
        exact (forEach_filter_absent _ cancel _ w a cancel_cancel Hw). }
      rewrite (forEach_filter_absent _ cancel _ w a cancel_cancel Hw).
      rewrite (forEach_filter_absent _ cancel _ w1 a cancel_cancel H1).
      reflexivity.
Qed.


Lemma cancelTimer_spec_witness :
  heap (cancelTimer "ad" blockWorld) !! 1%nat = Some (cancel (activeTimer "ad" 2%nat true)) /\
  heap (cancelTimer "ad" blockWorld) !! 2%nat = Some (activeTimer "save" 3%nat false).
Proof.
  destruct (cancelTimer_spec "ad" blockWorld) as (_ & _ & _ & H). split.
  - apply (proj1 (H 1%nat _ eq_refl)); [|reflexivity].
    apply list_elem_of_further, list_elem_of_here.
  - apply (proj2 (H 2%nat _ eq_refl)). right. discriminate.
Defined.

(** With two block timers and a save timer active, only the block timers
    are cancelled. *)
Lemma cancelBlockTimers_spec_witness :
  heap (cancelBlockTimers blockWorld) !! 0%nat
  = Some (cancel (activeTimer "intro" 1%nat true)) /\
  heap (cancelBlockTimers blockWorld) !! 2%nat = Some (activeTimer "save" 3%nat false).
Proof.
  destruct (cancelBlockTimers_spec blockWorld) as (_ & _ & H). split.
  - apply (proj1 (H 0%nat _ eq_refl)); [|reflexivity]. apply list_elem_of_here.
  - apply (proj2 (H 2%nat _ eq_refl)). right. reflexivity.
Defined.

Lemma getTimer_spec_witness :
  getTimer "save" blockWorld = Some 2%nat /\ hasTimer "rate" blockWorld = false.
Proof.
  split; [reflexivity|].
  apply not_true_is_false. intros H.
  apply (proj2 (getTimer_spec "rate" blockWorld)) in H as (a & t & Ha & Ht & Hid).
  vm_compute in Ha.
  repeat (apply elem_of_cons in Ha as [->|Ha]; [vm_compute in Ht; injection Ht as <-;
                                                discriminate|]).
  inversion Ha.
Defined.

(** ** Adding *)

Lemma noActiveTimer_spec (i : string) (w : World) :
  noActiveTimer i w = true <->
  forall a t, a ∈ TimerManager.timers (timerManager w) ->
    heap w !! a = Some t -> id t = i -> isActive t = false.
Proof.
  unfold noActiveTimer. rewrite Nat.eqb_eq.
  pose proof (filter_head
    (holds (fun t => String.eqb (id t) i && Bool.eqb (isActive t) true) (heap w))
    (TimerManager.timers (timerManager w))) as Hf.
  destruct (List.filter _ _) as [|a k]; cbn [length].
  - split; [intros _|reflexivity]. intros a t Ha Ht Hid.
    specialize (Hf a Ha). unfold holds in Hf. rewrite Ht in Hf.
    apply String.eqb_eq in Hid. rewrite Hid in Hf. cbn in Hf.
    destruct (isActive t); [discriminate|reflexivity].
  - split; [discriminate|]. intros H.
    destruct Hf as (l1 & l2 & Hl & Ha & _).
    apply holds_true in Ha as (t & Ht & Hp).
    apply andb_true_iff in Hp as [Hid Hact]. apply String.eqb_eq in Hid.
    assert (Hin : a ∈ TimerManager.timers (timerManager w)).
    { rewrite Hl. apply elem_of_app. right. apply list_elem_of_here. }
    rewrite (H a t Hin Ht Hid) in Hact. discriminate.
Qed.

(** X14. [addTimer] with valid arguments is refused when the collection holds an
    active timer of the same id: nothing is added or changed, and one
    warning is logged. *)
Theorem addTimer_duplicate (i : string) (f : Callback) (b : bool) (n : Z)
    (m : option Z) (ia : bool) (ta : option Callback) (w : World) (a : addr) (t : Timer) :
  0 < n -> (forall k, m = Some k -> 0 < k) ->
  a ∈ TimerManager.timers (timerManager w) -> heap w !! a = Some t ->
  id t = i -> isActive t = true ->
  heap (addTimer i f b n m ia ta w) = heap w /\
  timerManager (addTimer i f b n m ia ta w) = timerManager w /\
  callsSince w (addTimer i f b n m ia ta w) = [ConsoleWarn (DuplicateTimer i)].
Proof.
  intros Hn Hm Hin Ht Hid Hact. unfold addTimer, callsSince.
  assert (Hg : (n <=? 0) || match m with Some k => k <=? 0 | None => false end = false).
  { apply orb_false_iff. split; [apply Z.leb_gt; exact Hn|].
    destruct m as [k|]; [|reflexivity]. apply Z.leb_gt. apply Hm. reflexivity. }
  assert (Hd : noActiveTimer i w = false).
  { apply not_true_is_false. intros H.
    rewrite (proj1 (noActiveTimer_spec i w) H a t Hin Ht Hid) in Hact. discriminate. }
  rewrite Hg, Hd. cbn [emit heap timerManager trace].
  rewrite drop_app_length. repeat split.
Qed.

Lemma addTimer_duplicate_witness :
  callsSince blockWorld (addTimer "save" 4%nat false 60 None false None blockWorld)
  = [ConsoleWarn (DuplicateTimer "save")].
Proof.
  apply (addTimer_duplicate "save" 4%nat false 60 None false None blockWorld 2%nat
           (activeTimer "save" 3%nat false)); try reflexivity; [discriminate|].
  apply list_elem_of_further, list_elem_of_further, list_elem_of_here.
Defined.

Lemma head_filter_last {A : Type} (p : A -> bool) (l : list A) (c : A) :
  (forall x, x ∈ l -> p x = true -> x = c) ->
  head (List.filter p l ++ [c]) = Some c.
Proof.
  induction l as [|y l IH]; intros H; cbn [List.filter app head]; [reflexivity|].
  destruct (p y) eqn:Hy.
  - cbn. f_equal. apply H; [apply list_elem_of_here|exact Hy].
  - apply IH. intros x Hx. apply H. apply elem_of_cons. right. exact Hx.
Qed.

(** X15. [addTimer] with valid arguments and no active timer of the same id in
    the collection appends one object to the store and its address to the
    collection and touches nothing else; [hasTimer] then answers true, and
    [getTimer] returns the new timer when the id was not in the collection
    before. *)
Theorem addTimer_then_lookup (i : string) (f : Callback) (b : bool) (n : Z)
    (m : option Z) (ia : bool) (ta : option Callback) (w : World) :
  0 < n -> (forall k, m = Some k -> 0 < k) ->
  (forall a t, a ∈ TimerManager.timers (timerManager w) ->
     heap w !! a = Some t -> id t = i -> isActive t = false) ->
  heap (addTimer i f b n m ia ta w) = heap w ++ [constructor i f b n m ia ta (now w)] /\
  TimerManager.timers (timerManager (addTimer i f b n m ia ta w))
  = TimerManager.timers (timerManager w) ++ [length (heap w)] /\
  hasTimer i (addTimer i f b n m ia ta w) = true /\
  (hasTimer i w = false -> getTimer i (addTimer i f b n m ia ta w) = Some (length (heap w))).
Proof.
  intros Hn Hm Hfree.
  destruct (addTimer_accepts i f b n m ia ta w Hn Hm
              (proj2 (noActiveTimer_spec i w) Hfree)) as (Hh & Ht & _ & _).
  split; [exact Hh|]. split; [exact Ht|].
  assert (Hnew : heap (addTimer i f b n m ia ta w) !! length (heap w)
                 = Some (constructor i f b n m ia ta (now w))).
  { rewrite Hh. apply list_lookup_middle. reflexivity. }
  split.
  - apply hasTimer_exists. exists (length (heap w)), (constructor i f b n m ia ta (now w)).
    rewrite Ht. split; [|split; [exact Hnew|reflexivity]].
    apply elem_of_app. right. apply list_elem_of_here.
  - intros Hnone. rewrite getTimer_head, Ht, List.filter_app.
    cbn [List.filter]. unfold holds at 2. rewrite Hnew. cbn [id constructor].
    rewrite String.eqb_refl. apply head_filter_last.
    intros a Ha Hp. apply holds_true in Hp as (t & Hta & Hid).
    apply String.eqb_eq in Hid. rewrite Hh in Hta.
    apply lookup_app_Some in Hta as [Hta|[Hlen Hta]].
    + exfalso. apply not_true_iff_false in Hnone. apply Hnone.
      apply hasTimer_exists. exists a, t. auto.
    + destruct (a - length (heap w))%nat as [|k] eqn:Hk; [lia|].
      cbn in Hta. destruct k; discriminate.
Qed.

Lemma addTimer_then_lookup_witness :
  getTimer "rate" (addTimer "rate" 4%nat false 60 None false None blockWorld)
  = Some 3%nat.
Proof.
  apply (addTimer_then_lookup "rate" 4%nat false 60 None false None blockWorld);
    [reflexivity|discriminate| |reflexivity].
  intros a t Ha Ht Hid. vm_compute in Ha.
  repeat (apply elem_of_cons in Ha as [->|Ha]; [vm_compute in Ht; injection Ht as <-;
                                                discriminate|]).
  inversion Ha.
Defined.


(** ** Cancelling, then adding or pruning *)

(** Every timer of the collection with id [i] is inactive after
    [cancelTimer(i)]. *)
Lemma cancelTimer_inactive (i : string) (w : World) (a : addr) (t1 : Timer) :
  a ∈ TimerManager.timers (timerManager w) ->
  heap (cancelTimer i w) !! a = Some t1 -> id t1 = i -> isActive t1 = false.
Proof.
  intros Hin Ht1 Hid. unfold cancelTimer in Ht1.
  destruct (heap w !! a) as [t|] eqn:Ht.
  - destruct (cancel_by_lookup (fun x => String.eqb (id x) i) w a t Ht) as [Hyes Hno].
    destruct (String.eqb_spec (id t) i) as [He|Hne].
    + rewrite (Hyes Hin eq_refl) in Ht1. injection Ht1 as <-. reflexivity.
    + rewrite (Hno (or_intror eq_refl)) in Ht1. injection Ht1 as <-. contradiction.
  - rewrite (forEach_filter_absent _ cancel _ w a cancel_cancel Ht) in Ht1. discriminate.
Qed.

(** X16. After [cancelTimer(i)], [addTimer] with id [i] and valid arguments is
    accepted: the cancelled timers do not count as duplicates. *)
Theorem cancelTimer_then_addTimer (i : string) (f : Callback) (b : bool) (n : Z)
    (m : option Z) (ia : bool) (ta : option Callback) (w : World) :
  0 < n -> (forall k, m = Some k -> 0 < k) ->
  heap (addTimer i f b n m ia ta (cancelTimer i w))
  = heap (cancelTimer i w) ++ [constructor i f b n m ia ta (now w)] /\
  TimerManager.timers (timerManager (addTimer i f b n m ia ta (cancelTimer i w)))
  = TimerManager.timers (timerManager w) ++ [length (heap w)] /\
  trace (addTimer i f b n m ia ta (cancelTimer i w)) = trace w.
Proof.
  intros Hn Hm.
  assert (Hfr : timerManager (cancelTimer i w) = timerManager w /\
                now (cancelTimer i w) = now w /\ trace (cancelTimer i w) = trace w).
  { unfold cancelTimer.
    match goal with |- context [forEach ?g ?l ?w0] =>
      destruct (forEach_frame g l w0) as (-> & _ & _ & -> & _ & ->)
    end. auto. }
  destruct Hfr as (Hm1 & Hn1 & Ht1).
  assert (Hlen : length (heap (cancelTimer i w)) = length (heap w))
    by apply forEach_length.
  assert (Hfree : noActiveTimer i (cancelTimer i w) = true).
  { apply noActiveTimer_spec. intros a t1 Ha. rewrite Hm1 in Ha.
    exact (cancelTimer_inactive i w a t1 Ha). }
  destruct (addTimer_accepts i f b n m ia ta (cancelTimer i w) Hn Hm Hfree)
    as (Hh & Ht & Htr & _).
  rewrite Hh, Ht, Htr, Hm1, Hn1, Hlen, Ht1. auto.
Qed.

Lemma cancelTimer_then_addTimer_witness :
  TimerManager.timers
    (timerManager (addTimer "save" 4%nat false 60 None false None
                     (cancelTimer "save" blockWorld)))
  = [0%nat; 1%nat; 2%nat; 3%nat].
Proof.
  apply (cancelTimer_then_addTimer "save" 4%nat false 60 None false None blockWorld);
    [reflexivity|discriminate].
Defined.

(** X17. A timer cancelled by [cancelTimer(i)] is gone from the collection after
    the next pass that is not skipped, unless it is an inactivity timer. *)
Theorem cancelled_timer_is_pruned (i : string) (w : World) (a : addr) (t : Timer) :
  skipsPass (cancelTimer i w) = false ->
  a ∈ TimerManager.timers (timerManager (checkTimers (cancelTimer i w))) ->
  heap (checkTimers (cancelTimer i w)) !! a = Some t ->
  id t = i ->
  isInactivityTimer t = true.
Proof.
  intros Hs Hin Ht Hid.
  assert (Hm1 : timerManager (cancelTimer i w) = timerManager w).
  { unfold cancelTimer. apply forEach_frame. }
  unfold checkTimers in Hin, Ht. rewrite Hs in Hin, Ht. cbn zeta in Hin, Ht.
  rewrite executeAll_timerManager in Hin.
  cbn [timerManager set_timerManager TimerManager.timers] in Hin.
  apply list_elem_of_In, filter_In in Hin as [Hin Hp].
  apply list_elem_of_In in Hin. rewrite Hm1 in Hin.
  apply holds_true in Hp as (t1 & Ht1 & Hp).
  match type of Ht with heap (executeAll ?d ?l ?w1) !! _ = _ =>
    destruct (executeAll_flags d l w1 a t1 Ht1) as (t' & Ht' & Hact & Hkind);
    destruct (settingsKept_executeAll d l w1 a t1 Ht1) as (t'' & Ht'' & Hsame)
  end.
  rewrite Ht in Ht', Ht''. injection Ht' as <-. injection Ht'' as <-.
  destruct Hsame as (Hid1 & _).
  assert (Hoff : isActive t1 = false).
  { apply (cancelTimer_inactive i w a t1 Hin Ht1). congruence. }
  rewrite Hoff in Hp. cbn in Hp. congruence.
Qed.

(** In [catchUpWorld] the cancelled timer is an inactivity timer: it stays
    in the collection. *)
Lemma cancelled_timer_is_pruned_witness :
  exists t, heap (checkTimers (cancelTimer "poll" catchUpWorld)) !! 0%nat = Some t /\
    isInactivityTimer t = true.
Proof.
  destruct (heap (checkTimers (cancelTimer "poll" catchUpWorld)) !! 0%nat) as [t|] eqn:Ht;
    [|vm_compute in Ht; discriminate].
  exists t. split; [reflexivity|].
  apply (cancelled_timer_is_pruned "poll" catchUpWorld 0%nat t); [reflexivity| |exact Ht|].
  - vm_compute. apply list_elem_of_here.
  - vm_compute in Ht. injection Ht as <-. reflexivity.
Defined.


End Collection.

(** * A pass of [checkTimers] *)

Section Pass.

Import Timer.

Lemma executeAction_now (self : addr) (d : Date) (w : World) :
  now (executeAction self d w) = now w /\
  length (heap (executeAction self d w)) = length (heap w).
Proof.
  destruct (heap w !! self) as [t|] eqn:Hl;
    [|rewrite executeAction_absent by exact Hl; auto].
  destruct (isActive t) eqn:Ha;
    [|rewrite (executeAction_inactive self d w t Hl Ha); auto].
  destruct (executeAction_active self d w t Hl Ha) as (Hh & _ & _ & _ & Hn & _).
  rewrite Hh, Hn, length_alter. auto.
Qed.

Lemma executeAll_now (d : Date) (l : list addr) (w : World) :
  now (executeAll d l w) = now w /\
  length (heap (executeAll d l w)) = length (heap w).
Proof.
  unfold executeAll. revert w.
  induction l as [|x l IH]; intros w; cbn [fold_left]; [auto|].
  destruct (IH (executeAction x d w)) as [-> ->]. apply executeAction_now.
Qed.

Lemma NoDup_filter_bool {A : Type} (p : A -> bool) (l : list A) :
  NoDup l -> NoDup (List.filter p l).
Proof. rewrite !NoDup_ListNoDup. apply List.NoDup_filter. Qed.

(** Each address of a list without repetition whose timers are active is
    ticked once, with the object it had at the start. *)
Lemma executeAll_lookup (d : Date) (l : list addr) (w : World) (a : addr) :
  NoDup l ->
  (forall x, x ∈ l -> holds isActive (heap w) x = true) ->
  heap (executeAll d l w) !! a
  = (if existsb (Nat.eqb a) l then ticked d (now w) else fun t => t) <$> heap w !! a.
Proof.
  unfold executeAll. revert w.
  induction l as [|x l IH]; intros w Hnd Hact; cbn [fold_left existsb].
  - destruct (heap w !! a); reflexivity.
  - apply NoDup_cons in Hnd as [Hx Hnd].
    destruct (proj1 (holds_true isActive (heap w) x) (Hact x (list_elem_of_here _ _)))
      as (tx & Htx & Hax).
    destruct (executeAction_active x d w tx Htx Hax) as (Hh & _ & _ & _ & Hn & _).
    rewrite IH; [|exact Hnd|].
    + rewrite Hn, Hh. destruct (Nat.eqb_spec a x) as [->|Hne]; cbn [orb].
      * replace (existsb (Nat.eqb x) l) with false
          by (symmetry; apply not_true_is_false; rewrite existsb_eqb_elem; exact Hx).
        rewrite list_lookup_alter_eq, Htx. reflexivity.
      * rewrite list_lookup_alter_ne by congruence. reflexivity.
    + intros y Hy. unfold holds. rewrite Hh, list_lookup_alter_ne.
      * apply (Hact y). apply elem_of_cons. right. exact Hy.
      * intros ->. contradiction.
Qed.

(** X18. A pass that is not skipped, over a collection without repetition:
    [lastExecutionDate] becomes the current date, the collection keeps, in
    order, its active timers and its inactivity timers, each active timer
    of the collection is ticked exactly once, and nothing else in the store
    changes. *)
Theorem checkTimers_pass (w : World) :
  skipsPass w = false ->
  NoDup (TimerManager.timers (timerManager w)) ->
  TimerManager.lastExecutionDate (timerManager (checkTimers w)) = now w /\
  TimerManager.timers (timerManager (checkTimers w))
  = List.filter (holds (fun x => isActive x || isInactivityTimer x) (heap w))
      (TimerManager.timers (timerManager w)) /\
  length (heap (checkTimers w)) = length (heap w) /\
  forall a t, heap w !! a = Some t ->
    (a ∈ TimerManager.timers (timerManager w) -> isActive t = true ->
     heap (checkTimers w) !! a = Some (ticked (now w) (now w) t)) /\
    (a ∉ TimerManager.timers (timerManager w) \/ isActive t = false ->
     heap (checkTimers w) !! a = Some t).
Proof.
  intros Hs Hnd. unfold checkTimers. rewrite Hs. cbn zeta.
  rewrite executeAll_timerManager.
  cbn [timerManager set_timerManager TimerManager.timers TimerManager.lastExecutionDate
       heap].
  split; [reflexivity|]. split; [reflexivity|].
  split; [rewrite (proj2 (executeAll_now _ _ _)); reflexivity|].
  intros a t Ha.
  match goal with |- context [executeAll ?d ?l ?w1] =>
    assert (Hlk : heap (executeAll d l w1) !! a
                  = Some (if existsb (Nat.eqb a) (TimerManager.timers (timerManager w))
                             && isActive t
                          then ticked (now w) (now w) t else t))
  end.
  { rewrite executeAll_lookup.
    - cbn [heap set_timerManager now]. rewrite Ha.
      rewrite (existsb_filter_holds _ _ _ a t Ha), (existsb_filter_holds _ _ _ a t Ha).
      cbn. destruct (existsb _ _); destruct (isActive t);
        destruct (isInactivityTimer t); reflexivity.
    - apply NoDup_filter_bool, NoDup_filter_bool. exact Hnd.
    - intros x Hx. apply list_elem_of_In, filter_In in Hx as [_ Hx]. exact Hx. }
  rewrite Hlk. split.
  - intros Hin Hact. apply existsb_eqb_elem in Hin. rewrite Hin, Hact. reflexivity.
  - intros [Hin|Hact].
    + replace (existsb (Nat.eqb a) (TimerManager.timers (timerManager w))) with false
        by (symmetry; apply not_true_is_false; rewrite existsb_eqb_elem; exact Hin).
      reflexivity.
    + rewrite Hact, andb_false_r. reflexivity.
Qed.

Lemma checkTimers_pass_witness :
  heap (checkTimers catchUpWorld) !! 0%nat = Some (ticked 6000 6000 pollTimer).
Proof.
  destruct (checkTimers_pass catchUpWorld) as (_ & _ & _ & H);
    [reflexivity|apply NoDup_singleton|].
  apply (proj1 (H 0%nat pollTimer eq_refl)); [apply list_elem_of_here|reflexivity].
Defined.

(** X19. A second pass at the same clock reading is dropped, whenever the period
    is above the 400 ms of tolerance: [checkTimers] run twice is
    [checkTimers] run once. *)
Theorem checkTimers_twice (w : World) :
  400 < TimerManager.checkTimerInterval (timerManager w) ->
  checkTimers (checkTimers w) = checkTimers w.
Proof.
  intros Hi. destruct (skipsPass w) eqn:Hs.
  - assert (Hw : checkTimers w = w) by (unfold checkTimers; rewrite Hs; reflexivity).
    rewrite Hw. exact Hw.
  - assert (Hskip : skipsPass (checkTimers w) = true).
    { apply skipsPass_below. unfold checkTimers. rewrite Hs. cbn zeta.
      rewrite executeAll_timerManager, (proj1 (executeAll_now _ _ _)).
      cbn [timerManager set_timerManager now TimerManager.lastExecutionDate
           TimerManager.checkTimerInterval].
      rewrite Z.sub_diag. cbn. lia. }
    unfold checkTimers at 1. rewrite Hskip. reflexivity.
Qed.

Lemma checkTimers_twice_witness :
  checkTimers (checkTimers catchUpWorld) = checkTimers catchUpWorld.
Proof. apply checkTimers_twice. reflexivity. Defined.

Lemma executeAll_holds_kind (d : Date) (l : list addr) (w : World) (a : addr) :
  holds isInactivityTimer (heap (executeAll d l w)) a = holds isInactivityTimer (heap w) a.
Proof.
  unfold holds. destruct (heap w !! a) as [t|] eqn:Ha.
  - destruct (executeAll_flags d l w a t Ha) as (t' & -> & _ & Hk). exact Hk.
  - apply lookup_ge_None in Ha. rewrite <- (proj2 (executeAll_now d l w)) in Ha.
    apply lookup_ge_None in Ha. rewrite Ha. reflexivity.
Qed.

Lemma existsb_filter_imp {A : Type} (p q : A -> bool) (l : list A) :
  (forall x, p x = true -> q x = true) ->
  existsb p (List.filter q l) = existsb p l.
Proof.
  intros Himp. induction l as [|x l IH]; cbn [List.filter existsb]; [reflexivity|].
  destruct (q x) eqn:Hq; cbn [existsb]; rewrite IH; [reflexivity|].
  destruct (p x) eqn:Hp; [|reflexivity].
  rewrite (Himp x Hp) in Hq. discriminate.
Qed.

Lemma existsb_pointwise {A : Type} (p q : A -> bool) (l : list A) :
  (forall x, p x = q x) -> existsb p l = existsb q l.
Proof.
  intros H. induction l as [|x l IH]; cbn [existsb]; [reflexivity|].
  rewrite H, IH. reflexivity.
Qed.

(** X20. A pass never adds to the collection and never drops an inactivity
    timer from it, active or not; so [hasInactivityTimers] answers the same
    before and after any pass. *)
Theorem checkTimers_keeps_inactivity (w : World) :
  (forall a, a ∈ TimerManager.timers (timerManager (checkTimers w)) ->
     a ∈ TimerManager.timers (timerManager w)) /\
  (forall a t, a ∈ TimerManager.timers (timerManager w) ->
     heap w !! a = Some t -> isInactivityTimer t = true ->
     a ∈ TimerManager.timers (timerManager (checkTimers w))) /\
  hasInactivityTimers (checkTimers w) = hasInactivityTimers w.
Proof.
  unfold checkTimers, hasInactivityTimers. destruct (skipsPass w); [auto|]. cbn zeta.
  rewrite executeAll_timerManager. cbn [timerManager set_timerManager TimerManager.timers].
  split; [|split].
  - intros a Ha. apply list_elem_of_In, filter_In in Ha as [Ha _].
    apply list_elem_of_In. exact Ha.
  - intros a t Ha Ht Hk. apply list_elem_of_In, filter_In. split.
    + apply list_elem_of_In. exact Ha.
    + unfold holds. rewrite Ht, Hk. apply orb_true_r.
  - rewrite (existsb_pointwise _ (holds isInactivityTimer (heap w)))
      by (intros a; rewrite executeAll_holds_kind; reflexivity).
    apply existsb_filter_imp. intros a Ha.
    apply holds_true in Ha as (t & Ht & Hk). unfold holds. rewrite Ht, Hk.
    apply orb_true_r.
Qed.

(** The cancelled inactivity timer of [catchUpWorld] outlives the pass. *)
Lemma checkTimers_keeps_inactivity_witness :
  0%nat ∈ TimerManager.timers
            (timerManager (checkTimers (update 0%nat cancel catchUpWorld))).
Proof.
  apply (proj1 (proj2 (checkTimers_keeps_inactivity (update 0%nat cancel catchUpWorld)))
           0%nat (cancel pollTimer)); [apply list_elem_of_here|reflexivity|reflexivity].
Defined.


End Pass.

(** * Resets and set-up *)

Section ResetAndSetup.

Import Timer.

(** X21. Two resets of the inactivity timers less than 10 seconds apart: the
    second one does nothing. *)
Theorem resetInactivityTimers_rate_limit (depth depth' : nat) (w w1 : World) (d : Date) :
  10000 <= Z.abs (now w - inactivityLastClearDate w) ->
  resetInactivityTimers (S (S depth)) w = Some w1 ->
  Z.abs (d - now w) < 10000 ->
  resetInactivityTimers (S depth') (set_now d w1) = Some (set_now d w1).
Proof.
  intros Hdue Hw1 Hd. rewrite resetInactivityTimers_due in Hw1 by exact Hdue.
  injection Hw1 as <-. apply resetInactivityTimers_recent.
  match goal with |- context [forEach ?f ?l ?w0] =>
    destruct (forEach_frame f l w0) as (_ & Hc & _)
  end.
  cbn [now set_now inactivityLastClearDate]. rewrite Hc. exact Hd.
Qed.

Lemma resetInactivityTimers_rate_limit_witness :
  exists w1, resetInactivityTimers 2 (set_now 60000 catchUpWorld) = Some w1 /\
    resetInactivityTimers 1 (set_now 69999 w1) = Some (set_now 69999 w1).
Proof.
  destruct (resetInactivityTimers 2 (set_now 60000 catchUpWorld)) as [w1|] eqn:Hw1;
    [|vm_compute in Hw1; discriminate].
  exists w1. split; [reflexivity|].
  apply (resetInactivityTimers_rate_limit 0 0 (set_now 60000 catchUpWorld) w1 69999);
    [vm_compute; discriminate|exact Hw1|reflexivity].
Defined.

Lemma filter_holds_none (p : Timer -> bool) (h : list Timer) (l : list addr) :
  existsb (holds p h) l = false -> List.filter (holds p h) l = [].
Proof.
  induction l as [|x l IH]; cbn [existsb List.filter]; [reflexivity|].
  intros H. apply orb_false_iff in H as [Hx Hl]. rewrite Hx. exact (IH Hl).
Qed.

(** X22. A reset that is due clears exactly one alert, named after the
    availability of the rxd library, and calls nothing else; the manager
    and the calls in flight are untouched, and without inactivity timers in
    the collection the store is untouched too. *)
Theorem resetInactivityTimers_clears_alert (depth : nat) (w : World) :
  10000 <= Z.abs (now w - inactivityLastClearDate w) ->
  exists w1, resetInactivityTimers (S (S depth)) w = Some w1 /\
    callsSince w w1
    = [ClearAlerts [if rxdLibraryIsAvailable w then "RxdUserInactivityWarning"
                    else "UserInactivityWarning"]] /\
    timerManager w1 = timerManager w /\
    awaiting w1 = awaiting w /\
    (hasInactivityTimers w = false -> heap w1 = heap w).
Proof.
  intros Hdue. eexists. split; [apply resetInactivityTimers_due; exact Hdue|].
  match goal with |- context [forEach ?f ?l ?w0] =>
    destruct (forEach_frame f l w0) as (Hm & _ & _ & _ & Ha & Ht)
  end.
  unfold callsSince. rewrite Hm, Ha, Ht.
  cbn [emit set_inactivityLastClearDate trace timerManager awaiting heap].
  rewrite drop_app_length. repeat split.
  intros Hnone. unfold hasInactivityTimers in Hnone.
  rewrite (filter_holds_none _ _ _ Hnone). reflexivity.
Qed.

Lemma resetInactivityTimers_clears_alert_witness :
  exists w1, resetInactivityTimers 2 (set_now 60000 blockWorld) = Some w1 /\
    callsSince (set_now 60000 blockWorld) w1 = [ClearAlerts ["RxdUserInactivityWarning"]] /\
    heap w1 = heap blockWorld.
Proof.
  destruct (resetInactivityTimers_clears_alert 0 (set_now 60000 blockWorld))
    as (w1 & Hw1 & Hc & _ & _ & Hh); [vm_compute; discriminate|].
  exists w1. split; [exact Hw1|]. split; [exact Hc|]. apply Hh. reflexivity.
Defined.

(** ** [setupTimers] *)

Section Table.

Variable timerActions : string -> option (Z -> option Z -> World -> World).

Lemma setupTimers_errors (l : list TimerSettings.TimerSettings) (h : Host) :
  errors (setupTimers timerActions (Some l) h)
  = errors h ++ map (fun x => unknownTimer (TimerSettings.timerName x))
                    (List.filter (fun x => positive x && unknown timerActions x) l).
Proof.
  cbn [setupTimers]. revert h.
  induction l as [|x l IH]; intros h; cbn [fold_left List.filter map].
  - rewrite app_nil_r. reflexivity.
  - rewrite IH. unfold setupTimer, positive, unknown.
    destruct (0 <? TimerSettings.intervalSeconds x); cbn [andb]; [|reflexivity].
    destruct (timerActions (TimerSettings.timerName x)); cbn [errors map];
      [reflexivity|].
    rewrite <- app_assoc. reflexivity.
Qed.

Lemma setupTimers_positive (l : list TimerSettings.TimerSettings) (h : Host) :
  setupTimers timerActions (Some l) h
  = setupTimers timerActions (Some (List.filter positive l)) h.
Proof.
  cbn [setupTimers]. revert h.
  induction l as [|x l IH]; intros h; cbn [fold_left List.filter]; [reflexivity|].
  destruct (positive x) eqn:Hp; cbn [fold_left]; [apply IH|].
  rewrite <- IH. unfold setupTimer. unfold positive in Hp. rewrite Hp. reflexivity.
Qed.

Lemma setupTimers_unknown_world (l : list TimerSettings.TimerSettings) (h : Host) :
  (forall x, x ∈ l -> positive x = true -> unknown timerActions x = true) ->
  world (setupTimers timerActions (Some l) h) = world h.
Proof.
  cbn [setupTimers]. revert h.
  induction l as [|x l IH]; intros h Hall; cbn [fold_left]; [reflexivity|].
  rewrite IH by (intros y Hy; apply Hall; apply elem_of_cons; right; exact Hy).
  unfold setupTimer.
  pose proof (Hall x (list_elem_of_here _ _)) as Hx. unfold positive, unknown in Hx.
  destruct (0 <? TimerSettings.intervalSeconds x); [|reflexivity].
  destruct (timerActions (TimerSettings.timerName x)); [|reflexivity].
  specialize (Hx eq_refl). discriminate.
Qed.

End Table.

(** X23. [setupTimers(null)] does nothing.  Settings whose interval is not
    positive are skipped without a trace, known name or not; of the others,
    each unknown name gets one line on [console.error], in the order of the
    list, and changes nothing in the world. *)
Theorem setupTimers_spec (timerActions : string -> option (Z -> option Z -> World -> World))
    (l : list TimerSettings.TimerSettings) (h : Host) :
  setupTimers timerActions None h = h /\
  setupTimers timerActions (Some l) h
  = setupTimers timerActions (Some (List.filter positive l)) h /\
  errors (setupTimers timerActions (Some l) h)
  = errors h ++ map (fun x => unknownTimer (TimerSettings.timerName x))
                    (List.filter (fun x => positive x && unknown timerActions x) l) /\
  ((forall x, x ∈ l -> positive x = true -> unknown timerActions x = true) ->
   world (setupTimers timerActions (Some l) h) = world h).
Proof.
  split; [reflexivity|]. split; [apply setupTimers_positive|].
  split; [apply setupTimers_errors|apply setupTimers_unknown_world].
Qed.

Lemma setupTimers_spec_witness :
  setupTimers sampleTable (Some strangers) (mkHost blockWorld [])
  = mkHost blockWorld [unknownTimer "intro"].
Proof.
  destruct (setupTimers_spec sampleTable strangers (mkHost blockWorld []))
    as (_ & _ & He & Hw).
  destruct (setupTimers sampleTable (Some strangers) (mkHost blockWorld []))
    as [w' e'] eqn:Hs.
  cbn [errors world] in He, Hw. rewrite He. f_equal.
  apply Hw. intros x Hx _. unfold strangers in Hx.
  repeat (apply elem_of_cons in Hx as [->|Hx]; [reflexivity|]).
  inversion Hx.
Defined.

End ResetAndSetup.
